(** * VirtuSoC-DSP: the clock-driving testbench [sim/sim_main.cpp]

    The repository's only hand-written C++ file is the driver of a
    Verilator model: it registers the command line with the simulation
    runtime, allocates the generated model [Vtop], toggles its [clk] input
    for a fixed number of cycles, calling [eval] on each edge, prints a
    closing line and frees the model.

    The generated class [Vtop] (header [Vtop.h]) and the runtime
    ([verilated.h]) are produced by the RTL toolchain and are not part of
    the source; they enter this development as an interface
    ([VerilatedModel]) over which every result is quantified.

    [main] is embedded as a small-step machine whose program points are
    the statements of the C++ function.  Its state holds the locals of
    [main], the runtime's registered command line, the heap of model
    objects, the text written to standard output and the log of the
    driver's actions. *)

From stdpp Require Import gmap strings list fin_maps.
From Stdlib Require Import Ascii.

Local Open Scope Z_scope.

(** ** Machine integers of the C++ types involved *)

(** [CData] is the runtime's 8-bit unsigned type of a one-bit port;
    assigning an [int] to it keeps the low eight bits. *)
Definition to_CData (v : Z) : Z := v mod 2 ^ 8.

(** Largest value of a 32-bit [int]. *)
Definition INT_MAX : Z := 2 ^ 31 - 1.

(** [++i] on an [int]: signed overflow has no defined result. *)
Definition int_incr (k : Z) : option Z :=
  if decide (k + 1 ≤ INT_MAX) then Some (k + 1) else None.

(** ** Text *)

Definition newline : string := String "010"%char EmptyString.

(** The literal of line 23, ["Sim done\n"]. *)
Definition Sim_done : string := "Sim done" +:+ newline.

(** ** The simulation runtime and the generated model *)

(** What [Verilated::commandArgs] has stored: nothing, or the last
    [argc]/[argv] it was given. *)
Definition VerilatedCtx : Type := option (Z * list string).

(** A model object: the public input port [clk] and the rest of the
    generated design's state. *)
Record Vtop (D : Type) : Type := mkVtop { clk : Z; design : D }.
Arguments mkVtop {D} _ _.
Arguments clk {D} _.
Arguments design {D} _.

(** [top->clk = v;] *)
Definition set_clk {D} (v : Z) (o : Vtop D) : Vtop D :=
  mkVtop (to_CData v) (design o).

(** The interface of the generated class: its constructor and [eval].
    Both may consult the runtime's registered command line (plusargs);
    [eval] works on the whole object and returns it together with the text
    the design printed during the call. *)
Class VerilatedModel : Type := {
  Design : Type;
  Vtop_new : VerilatedCtx → Vtop Design;
  Vtop_eval : VerilatedCtx → Vtop Design → Vtop Design * string;
}.

(** [clk] is an input port: a generated [eval] reads it and never
    drives it. *)
Class ClkIsInput (M : VerilatedModel) : Prop :=
  eval_keeps_clk : ∀ ctx o, clk (Vtop_eval ctx o).1 = clk o.

(** ** The driver *)

(** Addresses of heap objects. *)
Abbreviation loc := positive.

(** The actions of [main], in program order. *)
Inductive Event : Type :=
  | EvCommandArgs (argc : Z) (argv : list string)
  | EvNew (p : loc)
  | EvSetClk (p : loc) (v : Z)
  | EvEval (p : loc) (clk_in : Z)
  | EvCout (text : string)
  | EvDelete (p : loc)
  | EvReturn (status : Z).

(** Program points: one per statement of [main], named by source line. *)
Inductive PC : Type :=
  | L6_commandArgs
  | L7_new
  | L10_clk0
  | L11_cycles
  | L13_init
  | L13_test
  | L15_clk1
  | L16_eval
  | L19_clk0
  | L20_eval
  | L13_incr
  | L23_cout
  | L24_delete
  | L25_return
  | Exited (status : Z).

#[global] Instance PC_eq_dec : EqDecision PC.
Proof. solve_decision. Defined.

Section Driver.

Context {M : VerilatedModel}.

Record State : Type := mkState {
  pc : PC;
  (* parameters and locals of main; None: not (yet) in scope *)
  argc : Z;
  argv : list string;
  top : option loc;
  cycles : option Z;
  i : option Z;
  (* the world *)
  vargs : VerilatedCtx;
  heap : gmap loc (Vtop Design);
  cout : string;
  trace : list Event;
}.

Definition goto (l : PC) (s : State) : State :=
  mkState l (argc s) (argv s) (top s) (cycles s) (i s)
          (vargs s) (heap s) (cout s) (trace s).

Definition with_top (p : option loc) (s : State) : State :=
  mkState (pc s) (argc s) (argv s) p (cycles s) (i s)
          (vargs s) (heap s) (cout s) (trace s).

Definition with_cycles (n : option Z) (s : State) : State :=
  mkState (pc s) (argc s) (argv s) (top s) n (i s)
          (vargs s) (heap s) (cout s) (trace s).

Definition with_i (k : option Z) (s : State) : State :=
  mkState (pc s) (argc s) (argv s) (top s) (cycles s) k
          (vargs s) (heap s) (cout s) (trace s).

Definition with_vargs (c : VerilatedCtx) (s : State) : State :=
  mkState (pc s) (argc s) (argv s) (top s) (cycles s) (i s)
          c (heap s) (cout s) (trace s).

Definition with_heap (h : gmap loc (Vtop Design)) (s : State) : State :=
  mkState (pc s) (argc s) (argv s) (top s) (cycles s) (i s)
          (vargs s) h (cout s) (trace s).

(** Text reaching standard output is appended to what is there. *)
Definition print (text : string) (s : State) : State :=
  mkState (pc s) (argc s) (argv s) (top s) (cycles s) (i s)
          (vargs s) (heap s) (cout s +:+ text) (trace s).

Definition log (e : Event) (s : State) : State :=
  mkState (pc s) (argc s) (argv s) (top s) (cycles s) (i s)
          (vargs s) (heap s) (cout s) (trace s ++ [e]).

(** [top->clk = v;] then continue at [next].  Dereferencing a pointer
    that does not point to a live object has no defined behaviour: the
    machine is stuck. *)
Definition store_clk (v : Z) (next : PC) (s : State) : option State :=
  p ← top s;
  o ← heap s !! p;
  Some (goto next (log (EvSetClk p (to_CData v))
                       (with_heap (<[p := set_clk v o]> (heap s)) s))).

(** [top->eval();] then continue at [next]. *)
Definition call_eval (next : PC) (s : State) : option State :=
  p ← top s;
  o ← heap s !! p;
  let r := Vtop_eval (vargs s) o in
  Some (goto next (log (EvEval p (clk o))
                       (print r.2 (with_heap (<[p := r.1]> (heap s)) s)))).

(** One statement of [main]. *)
Definition step (s : State) : option State :=
  match pc s with
  | L6_commandArgs =>
      (* Verilated::commandArgs(argc, argv); *)
      Some (goto L7_new (log (EvCommandArgs (argc s) (argv s))
                             (with_vargs (Some (argc s, argv s)) s)))
  | L7_new =>
      (* Vtop* top = new Vtop; *)
      let p := fresh (dom (heap s)) in
      Some (goto L10_clk0 (log (EvNew p)
              (with_top (Some p)
                 (with_heap (<[p := Vtop_new (vargs s)]> (heap s)) s))))
  | L10_clk0 =>
      (* top->clk = 0; *)
      store_clk 0 L11_cycles s
  | L11_cycles =>
      (* const int cycles = 10; *)
      Some (goto L13_init (with_cycles (Some 10) s))
  | L13_init =>
      (* int i = 0 *)
      Some (goto L13_test (with_i (Some 0) s))
  | L13_test =>
      (* i < cycles *)
      k ← i s;
      n ← cycles s;
      if decide (k < n) then Some (goto L15_clk1 s)
      else Some (goto L23_cout (with_i None s))
  | L15_clk1 =>
      (* top->clk = 1; *)
      store_clk 1 L16_eval s
  | L16_eval =>
      (* top->eval(); *)
      call_eval L19_clk0 s
  | L19_clk0 =>
      (* top->clk = 0; *)
      store_clk 0 L20_eval s
  | L20_eval =>
      (* top->eval(); *)
      call_eval L13_incr s
  | L13_incr =>
      (* ++i *)
      k ← i s;
      k' ← int_incr k;
      Some (goto L13_test (with_i (Some k') s))
  | L23_cout =>
      (* std::cout << "Sim done\n"; *)
      Some (goto L24_delete (log (EvCout Sim_done) (print Sim_done s)))
  | L24_delete =>
      (* delete top; *)
      p ← top s;
      _ ← heap s !! p;
      Some (goto L25_return (log (EvDelete p)
                                 (with_heap (delete p (heap s)) s)))
  | L25_return =>
      (* return 0; *)
      Some (goto (Exited 0) (log (EvReturn 0) s))
  | Exited _ => None
  end.

(** The state in which the operating system enters [main]. *)
Definition init (argc : Z) (argv : list string) : State :=
  mkState L6_commandArgs argc argv None None None None ∅ "" [].

(** At most [fuel] statements from [s]. *)
Fixpoint run (fuel : nat) (s : State) : State :=
  match fuel with
  | O => s
  | S fuel' =>
      match step s with
      | Some s' => run fuel' s'
      | None => s
      end
  end.

(** The states visited by [run], the first one included. *)
Fixpoint path (fuel : nat) (s : State) : list State :=
  s :: match fuel with
       | O => []
       | S fuel' =>
           match step s with
           | Some s' => path fuel' s'
           | None => []
           end
       end.

(** Statements executed by one call of [main]: five before the loop test,
    six per cycle, the failing test and the three closing ones. *)
Definition main_fuel : nat := 5 + 6 * 10 + 1 + 3.

Definition main (argc : Z) (argv : list string) : State :=
  run main_fuel (init argc argv).

Definition exit_status (s : State) : option Z :=
  match pc s with
  | Exited c => Some c
  | _ => None
  end.

End Driver.

(** ** What the model sees of the loop

    Per cycle one [eval] with the clock raised and one with the clock
    lowered. *)

Section ModelSide.

Context {M : VerilatedModel}.

(** One clock cycle: the object afterwards and the text printed. *)
Definition cycle (ctx : VerilatedCtx) (o : Vtop Design)
  : Vtop Design * string :=
  let r1 := Vtop_eval ctx (set_clk 1 o) in
  let r2 := Vtop_eval ctx (set_clk 0 r1.1) in
  (r2.1, r1.2 +:+ r2.2).

(** [m] clock cycles in a row. *)
Fixpoint simulate (ctx : VerilatedCtx) (m : nat) (o : Vtop Design)
  : Vtop Design * string :=
  match m with
  | O => (o, "")
  | S m' =>
      let r := cycle ctx o in
      let r' := simulate ctx m' r.1 in
      (r'.1, r.2 +:+ r'.2)
  end.

(** Everything the model's [eval] calls print during one run of [main]:
    ten cycles on the freshly built object whose clock was set to 0. *)
Definition model_output (argc : Z) (argv : list string) : string :=
  let ctx := Some (argc, argv) in
  (simulate ctx 10 (set_clk 0 (Vtop_new ctx))).2.

End ModelSide.

(** ** Reading the log of actions *)

(** The driver's actions during one cycle on the object at [p]. *)
Definition cycle_events (p : loc) : list Event :=
  [EvSetClk p 1; EvEval p 1; EvSetClk p 0; EvEval p 0].

(** The address the allocator hands out on an empty heap. *)
Definition first_loc : loc := fresh (∅ : gset loc).

(** The clock value each [eval] call found, in call order. *)
Definition eval_clocks (tr : list Event) : list Z :=
  omap (λ e, match e with EvEval _ v => Some v | _ => None end) tr.

(** The values assigned to [clk], in order. *)
Definition clk_writes (tr : list Event) : list Z :=
  omap (λ e, match e with EvSetClk _ v => Some v | _ => None end) tr.

(** The texts the driver itself sent to [std::cout], in order. *)
Definition cout_writes (tr : list Event) : list string :=
  omap (λ e, match e with EvCout t => Some t | _ => None end) tr.

(** The command lines handed to [Verilated::commandArgs], in order. *)
Definition registrations (tr : list Event) : list (Z * list string) :=
  omap (λ e, match e with EvCommandArgs a v => Some (a, v) | _ => None end) tr.

(** [e] is the forwarding of the command line to the runtime. *)
Definition is_registration (e : Event) : bool :=
  match e with
  | EvCommandArgs _ _ => true
  | _ => false
  end.

(** Everything the driver did apart from forwarding its command line. *)
Definition driver_actions (tr : list Event) : list Event :=
  filter (λ e, ¬ is_registration e) tr.

(** The addresses obtained from [new], in order. *)
Definition allocations (tr : list Event) : list loc :=
  omap (λ e, match e with EvNew p => Some p | _ => None end) tr.

(** The addresses handed to [delete], in order. *)
Definition deallocations (tr : list Event) : list loc :=
  omap (λ e, match e with EvDelete p => Some p | _ => None end) tr.

(** The model instance an action works on, if any. *)
Definition on_model (e : Event) : option loc :=
  match e with
  | EvNew p | EvSetClk p _ | EvEval p _ | EvDelete p => Some p
  | _ => None
  end.

(** [e] drives or evaluates the instance at [p]. *)
Definition is_use (p : loc) (e : Event) : Prop :=
  ∃ v, e = EvSetClk p v ∨ e = EvEval p v.

(** Clock values carried by an action are those of one bit. *)
Definition bit_event (e : Event) : Prop :=
  match e with
  | EvSetClk _ v | EvEval _ v => v = 0 ∨ v = 1
  | _ => True
  end.

(** ** Regions of [main] *)

(** The command line has been handed to the runtime. *)
Definition registered (l : PC) : bool :=
  match l with
  | L6_commandArgs => false
  | _ => true
  end.

(** The model object exists: after [new], up to [delete]. *)
Definition live (l : PC) : bool :=
  match l with
  | L6_commandArgs | L7_new | L25_return | Exited _ => false
  | _ => true
  end.

(** Inside the [for] statement, where [i] is in scope. *)
Definition in_for (l : PC) : bool :=
  match l with
  | L13_test | L15_clk1 | L16_eval | L19_clk0 | L20_eval | L13_incr => true
  | _ => false
  end.

(** Inside the loop body or at the increment: the test has succeeded. *)
Definition in_body (l : PC) : bool :=
  match l with
  | L15_clk1 | L16_eval | L19_clk0 | L20_eval | L13_incr => true
  | _ => false
  end.

(** [cycles] has been initialised. *)
Definition cycles_set (l : PC) : bool :=
  match l with
  | L6_commandArgs | L7_new | L10_clk0 | L11_cycles => false
  | _ => true
  end.

(** About to call [eval]. *)
Definition at_eval (l : PC) : bool :=
  match l with
  | L16_eval | L20_eval => true
  | _ => false
  end.

(** The value the driver has last assigned to [clk] when control is at
    [l]; [None] where it has assigned none or the object is gone. *)
Definition driven_clk (l : PC) : option Z :=
  match l with
  | L16_eval | L19_clk0 => Some 1
  | L11_cycles | L13_init | L13_test | L15_clk1
  | L20_eval | L13_incr | L23_cout | L24_delete => Some 0
  | _ => None
  end.

Section Properties.

Context {M : VerilatedModel}.

(** The entries into the loop body among the states of a path. *)
Definition body_entries (l : list State) : list State :=
  filter (λ s, pc s = L15_clk1) l.

(** A state at the loop test, with the model object live at [p]. *)
Definition at_test (a : Z) (v : list string) (p : loc) (n k : Z)
    (ctx : VerilatedCtx) (h : gmap loc (Vtop Design))
    (out : string) (tr : list Event) : State :=
  mkState L13_test a v (Some p) (Some n) (Some k) ctx h out tr.

(** Number of statements executed before cycle [j] starts: the five
    statements ahead of the loop test and six per earlier cycle. *)
Definition cycle_start (j : nat) : nat := 5 + 6 * j.

(** The object [new] builds, after the assignment of line 10. *)
Definition first_object (a : Z) (v : list string) : Vtop Design :=
  set_clk 0 (Vtop_new (Some (a, v))).

(** The actions ahead of the loop. *)
Definition prologue_events (a : Z) (v : list string) : list Event :=
  [EvCommandArgs a v; EvNew first_loc; EvSetClk first_loc 0].

(** The actions after the loop. *)
Definition epilogue_events : list Event :=
  [EvCout Sim_done; EvDelete first_loc; EvReturn 0].

(** The state in which [main] ends. *)
Definition final_state (a : Z) (v : list string) : State :=
  mkState (Exited 0) a v (Some first_loc) (Some 10) None (Some (a, v)) ∅
    (model_output a v +:+ Sim_done)
    (prologue_events a v
       ++ mjoin (replicate 10 (cycle_events first_loc))
       ++ epilogue_events).

(** The shape every state of an execution started with [a], [v] has. *)
Definition Inv (a : Z) (v : list string) (s : State) : Prop :=
  argc s = a ∧ argv s = v ∧
  vargs s = (if registered (pc s) then Some (a, v) else None) ∧
  cycles s = (if cycles_set (pc s) then Some 10 else None) ∧
  (if in_for (pc s)
   then ∃ k, i s = Some k ∧ 0 ≤ k ≤ 10 ∧ (in_body (pc s) → k < 10)
   else i s = None) ∧
  (if live (pc s)
   then ∃ p o, top s = Some p ∧ heap s = {[p := o]} ∧
               (at_eval (pc s) → Some (clk o) = driven_clk (pc s))
   else heap s = ∅) ∧
  Forall bit_event (trace s) ∧
  (∀ c, pc s = Exited c → c = 0).

(** The clock port holds what the driver assigned last. *)
Definition ClkInv (s : State) : Prop :=
  ∀ p o c, heap s !! p = Some o → driven_clk (pc s) = Some c → clk o = c.

(** What a statement inside the loop leaves alone: the parameters, the
    other locals, the registered command line and the set of live objects;
    and, unless it is an [eval] call, the output and the design's state. *)
Definition loop_frame (s s' : State) : Prop :=
  argc s' = argc s ∧ argv s' = argv s ∧ top s' = top s ∧
  cycles s' = cycles s ∧ vargs s' = vargs s ∧
  dom (heap s') = dom (heap s) ∧
  (¬ at_eval (pc s) →
     cout s' = cout s ∧
     ∀ p, design <$> heap s' !! p = design <$> heap s !! p).

(** Two states that agree on everything the driver decides: where it is,
    its pointer and counters, which objects exist, the actions taken apart
    from the forwarding of the command line, and the clock an imminent
    [eval] will find. *)
Definition same_driver (s1 s2 : State) : Prop :=
  pc s1 = pc s2 ∧ top s1 = top s2 ∧ cycles s1 = cycles s2 ∧ i s1 = i s2 ∧
  dom (heap s1) = dom (heap s2) ∧
  driver_actions (trace s1) = driver_actions (trace s2) ∧
  (at_eval (pc s1) →
     ∀ p, top s1 = Some p → clk <$> heap s1 !! p = clk <$> heap s2 !! p).

(** The statements that go through the pointer [top]. *)
Definition uses_top (l : PC) : bool :=
  match l with
  | L10_clk0 | L15_clk1 | L16_eval | L19_clk0 | L20_eval | L24_delete => true
  | _ => false
  end.

(** What no statement does to the driver's other locals: the parameters
    are never assigned, [top] is assigned by line 7 only and [cycles] by
    line 11 only. *)
Definition init_only (s s' : State) : Prop :=
  argc s' = argc s ∧ argv s' = argv s ∧
  (pc s ≠ L7_new → top s' = top s) ∧
  (pc s ≠ L11_cycles → cycles s' = cycles s).

(** The state in which [main] is entered by a process that already holds
    the heap objects [h0], an earlier registration [c0] with the runtime
    and the text [out0] on standard output. *)
Definition boot (c0 : VerilatedCtx) (h0 : gmap loc (Vtop Design))
    (out0 : string) (a : Z) (v : list string) : State :=
  mkState L6_commandArgs a v None None None c0 h0 out0 [].

(** The objects of [h0] are in the heap as they were, and [top] points to
    none of them. *)
Definition Untouched (h0 : gmap loc (Vtop Design)) (s : State) : Prop :=
  (∀ q o, h0 !! q = Some o → heap s !! q = Some o) ∧
  (∀ p, top s = Some p → h0 !! p = None).

End Properties.

(** Two states, each under a model of its own, that agree on all the
    driver has and has done: program point, parameters, pointer, counters,
    registered command line, the set of live objects, the whole log, and
    the clock an imminent [eval] will find. *)
Definition same_actions {M1 M2 : VerilatedModel}
    (s1 : @State M1) (s2 : @State M2) : Prop :=
  pc s1 = pc s2 ∧ argc s1 = argc s2 ∧ argv s1 = argv s2 ∧
  top s1 = top s2 ∧ cycles s1 = cycles s2 ∧ i s1 = i s2 ∧
  vargs s1 = vargs s2 ∧
  dom (heap s1) = dom (heap s2) ∧
  trace s1 = trace s2 ∧
  (at_eval (pc s1) →
     ∀ p, top s1 = Some p → clk <$> heap s1 !! p = clk <$> heap s2 !! p).

(** ** Sample models

    Stand-ins for a generated [Vtop], used to run the driver on concrete
    inputs. *)

(** A design without state that prints nothing. *)
Definition SilentModel : VerilatedModel := {|
  Design := unit;
  Vtop_new := λ _, mkVtop 0 ();
  Vtop_eval := λ _ o, (o, "");
|}.

(** A counter of rising clock edges: the design remembers the clock it
    saw last, and on a rising edge counts and prints a line. *)
Record EdgeCounterState : Type :=
  mkEdgeCounter { last_clk : Z; edges : Z }.

Definition EdgeCounter : VerilatedModel := {|
  Design := EdgeCounterState;
  Vtop_new := λ _, mkVtop 0 (mkEdgeCounter 0 0);
  Vtop_eval := λ _ o,
    let d := design o in
    if decide (last_clk d = 0 ∧ clk o = 1)
    then (mkVtop (clk o) (mkEdgeCounter (clk o) (edges d + 1)),
          "tick" +:+ newline)
    else (mkVtop (clk o) (mkEdgeCounter (clk o) (edges d)), "");
|}.

(** The edge counter built another way: the design keeps a flag for a
    clock seen high and tallies rising edges in unary; it prints the same
    line on a rising edge. *)
Record TallyState : Type := mkTally { seen_high : bool; ticks : nat }.

Definition TallyModel : VerilatedModel := {|
  Design := TallyState;
  Vtop_new := λ _, mkVtop 0 (mkTally false 0);
  Vtop_eval := λ _ o,
    let d := design o in
    let high := negb (clk o =? 0) in
    if negb (seen_high d) && (clk o =? 1)
    then (mkVtop (clk o) (mkTally high (S (ticks d))), "tick" +:+ newline)
    else (mkVtop (clk o) (mkTally high (ticks d)), "");
|}.

(** The edge counter and the tally in corresponding states: same clock,
    the remembered clock is 0 exactly when no high clock is flagged, same
    count. *)
Definition tally_rel
    (o1 : Vtop EdgeCounterState) (o2 : Vtop TallyState) : Prop :=
  clk o1 = clk o2 ∧
  (last_clk (design o1) = 0 ↔ seen_high (design o2) = false) ∧
  edges (design o1) = Z.of_nat (ticks (design o2)).

(** A design that drives its own clock port: [eval] leaves 7 in it. *)
Definition ScribbleModel : VerilatedModel := {|
  Design := unit;
  Vtop_new := λ _, mkVtop 0 ();
  Vtop_eval := λ _ o, (mkVtop 7 (design o), "");
|}.

(** [n] copies of a text. *)
Fixpoint repeat_text (n : nat) (t : string) : string :=
  match n with
  | O => ""
  | S n' => t +:+ repeat_text n' t
  end.

(** A design that prints the registered program name on every rising
    edge: its output depends on the command line. *)
Definition EchoModel : VerilatedModel := {|
  Design := unit;
  Vtop_new := λ _, mkVtop 0 ();
  Vtop_eval := λ ctx o,
    (o, if decide (clk o = 1)
        then match ctx with
             | Some (_, name :: _) => name
             | _ => ""
             end
        else "");
|}.

(** * Results *)

(** ** Text and machine integers *)

Lemma append_assoc (a b c : string) : (a +:+ b) +:+ c = a +:+ (b +:+ c).
Proof.
  induction a as [|ch a IH]; [reflexivity|].
  change (String ch ((a +:+ b) +:+ c) = String ch (a +:+ (b +:+ c))).
  by rewrite IH.
Qed.

Lemma append_empty_r (a : string) : a +:+ "" = a.
Proof.
  induction a as [|ch a IH]; [reflexivity|].
  change (String ch (a +:+ "") = String ch a). by rewrite IH.
Qed.

Lemma to_CData_bit (v : Z) : 0 ≤ v ≤ 1 → to_CData v = v.
Proof. intros Hv. unfold to_CData. apply Z.mod_small. lia. Qed.

Lemma first_loc_empty `{M : VerilatedModel} :
  fresh (dom (∅ : gmap loc (Vtop Design))) = first_loc.
Proof. unfold first_loc. by rewrite dom_empty_L. Qed.

(** ** Running the machine *)

Section RunFacts.

Context {M : VerilatedModel}.

Lemma run_add (a b : nat) (s : State) :
  run (a + b) s = run b (run a s).
Proof.
  revert s. induction a as [|a IH]; intros s; simpl; [done|].
  destruct (step s) as [s'|] eqn:Hs; [apply IH|].
  destruct b; simpl; [done|]. by rewrite Hs.
Qed.

Lemma run_S (n : nat) (s : State) :
  run (S n) s = match step s with Some s' => run n s' | None => s end.
Proof. reflexivity. Qed.

Lemma run_stuck (n : nat) (s : State) : step s = None → run n s = s.
Proof. intros Hs. destruct n; simpl; [done|]. by rewrite Hs. Qed.

Lemma run_halted_add (n m : nat) (s : State) :
  step (run n s) = None → run (n + m) s = run n s.
Proof. intros Hs. rewrite run_add. by apply run_stuck. Qed.

(** Running one statement further. *)
Lemma run_S_r (n : nat) (s : State) :
  run (S n) s = default (run n s) (step (run n s)).
Proof.
  replace (S n) with (n + 1)%nat by lia. rewrite run_add. simpl.
  by destruct (step (run n s)).
Qed.

(** A property kept by every statement holds all along an execution. *)
Lemma run_invariant (P : State → Prop) (s : State) :
  P s → (∀ s1 s2, P s1 → step s1 = Some s2 → P s2) →
  ∀ n, P (run n s).
Proof.
  intros H0 Hstep n. induction n as [|n IH]; [done|].
  rewrite run_S_r. destruct (step (run n s)) as [s2|] eqn:Hs; simpl; eauto.
Qed.

Lemma path_add (a b : nat) (s : State) :
  path (a + b) s = path a s ++ tail (path b (run a s)).
Proof.
  revert s. induction a as [|a IH]; intros s.
  - simpl. by destruct b.
  - simpl. destruct (step s) as [s'|] eqn:Hs.
    + by rewrite IH.
    + destruct b; simpl; [done|]. by rewrite Hs.
Qed.

Lemma path_cons (n : nat) (s s' : State) :
  step s = Some s' → path (S n) s = s :: path n s'.
Proof. intros Hs. simpl. by rewrite Hs. Qed.

Lemma path_stuck (n : nat) (s : State) : step s = None → path n s = [s].
Proof. intros Hs. destruct n; simpl; [done|]. by rewrite Hs. Qed.

End RunFacts.

(** Reduces the statement at hand on an explicit state: the program
    point is looked up, the update functions and the option monad are
    unfolded; heap, text and arithmetic stay as they are written. *)
Ltac state_simpl :=
  lazy beta iota zeta delta
    [step store_clk call_eval
     goto log print with_heap with_top with_i with_cycles with_vargs
     pc argc argv top cycles i vargs heap cout trace mbind option_bind].

Ltac state_simpl_in H :=
  lazy beta iota zeta delta
    [step store_clk call_eval
     goto log print with_heap with_top with_i with_cycles with_vargs
     pc argc argv top cycles i vargs heap cout trace mbind option_bind]
    in H.

(** Executes the next statement of a [run] whose state is explicit; the
    argument rewrites the statement's side condition, if it has one. *)
Ltac run_step tac :=
  rewrite run_S; state_simpl; tac; state_simpl.

(** ** The loop *)

Section Loop.

Context {M : VerilatedModel}.

(** One pass through the body and the increment: six statements. *)
Lemma loop_cycle a v p n k ctx h out tr o :
  h !! p = Some o →
  k < n → n ≤ INT_MAX →
  run 6 (at_test a v p n k ctx h out tr)
  = at_test a v p n (k + 1) ctx
      (<[p := (cycle ctx o).1]> h)
      (out +:+ (cycle ctx o).2)
      (tr ++ cycle_events p).
Proof.
  intros Hp Hk Hn. unfold at_test.
  run_step ltac:(rewrite decide_True by done).
  run_step ltac:(rewrite Hp).
  run_step ltac:(rewrite lookup_insert_eq).
  run_step ltac:(rewrite lookup_insert_eq).
  run_step ltac:(rewrite lookup_insert_eq).
  run_step ltac:(unfold int_incr; rewrite decide_True by lia).
  cbn [run].
  rewrite !insert_insert_eq, append_assoc, <- !app_assoc.
  reflexivity.
Qed.

(** [m] passes, as long as the counter stays below [n]. *)
Lemma loop_cycles (m : nat) a v p n k ctx h out tr o :
  h !! p = Some o →
  k + Z.of_nat m ≤ n → n ≤ INT_MAX →
  run (6 * m) (at_test a v p n k ctx h out tr)
  = at_test a v p n (k + Z.of_nat m) ctx
      (<[p := (simulate ctx m o).1]> h)
      (out +:+ (simulate ctx m o).2)
      (tr ++ mjoin (replicate m (cycle_events p))).
Proof.
  revert k h out tr o.
  induction m as [|m IH]; intros k h out tr o Hp Hk Hn.
  - simpl. rewrite insert_id, append_empty_r, app_nil_r, Z.add_0_r by done.
    reflexivity.
  - replace (6 * S m)%nat with (6 + 6 * m)%nat by lia.
    rewrite run_add, (loop_cycle _ _ _ _ _ _ _ _ _ o) by (done || lia).
    rewrite (IH _ _ _ _ (cycle ctx o).1)
      by (apply lookup_insert_eq || lia).
    rewrite insert_insert_eq, append_assoc, <- app_assoc.
    replace (k + 1 + Z.of_nat m) with (k + Z.of_nat (S m)) by lia.
    reflexivity.
Qed.

(** The test that fails ends the loop and the scope of [i]. *)
Lemma loop_exit a v p n k ctx h out tr :
  n ≤ k →
  run 1 (at_test a v p n k ctx h out tr)
  = mkState L23_cout a v (Some p) (Some n) None ctx h out tr.
Proof.
  intros Hk. unfold at_test.
  run_step ltac:(rewrite decide_False by lia).
  reflexivity.
Qed.

End Loop.

(** ** The whole of [main] *)

Section Main.

Context {M : VerilatedModel}.

(** The five statements ahead of the first loop test. *)
Lemma main_prologue (a : Z) (v : list string) :
  run 5 (init a v)
  = at_test a v first_loc 10 0 (Some (a, v))
      {[first_loc := first_object a v]} "" (prologue_events a v).
Proof.
  unfold init, at_test, first_object, prologue_events.
  run_step idtac.
  run_step ltac:(rewrite first_loc_empty).
  run_step ltac:(rewrite lookup_insert_eq).
  run_step idtac.
  run_step idtac.
  cbn [run].
  rewrite insert_insert_eq, insert_empty. reflexivity.
Qed.

(** The three statements after the loop. *)
Lemma main_epilogue a v p n ctx o out tr :
  run 3 (mkState L23_cout a v (Some p) (Some n) None ctx {[p := o]} out tr)
  = mkState (Exited 0) a v (Some p) (Some n) None ctx ∅ (out +:+ Sim_done)
      (tr ++ [EvCout Sim_done; EvDelete p; EvReturn 0]).
Proof.
  run_step idtac.
  run_step ltac:(rewrite lookup_singleton_eq).
  run_step idtac.
  cbn [run].
  rewrite delete_singleton_eq, <- !app_assoc. reflexivity.
Qed.

Lemma main_eq (a : Z) (v : list string) :
  main a v = run main_fuel (init a v).
Proof. reflexivity. Qed.

(** [main] runs to its [return] and ends in [final_state]. *)
Lemma main_final (a : Z) (v : list string) : main a v = final_state a v.
Proof.
  unfold main, main_fuel.
  rewrite (run_add (5 + 6 * 10 + 1) 3), (run_add (5 + 6 * 10) 1),
    (run_add 5 (6 * 10)).
  rewrite main_prologue.
  rewrite (loop_cycles 10 _ _ _ _ _ _ _ _ _ (first_object a v))
    by (apply lookup_singleton_eq || unfold INT_MAX; lia).
  rewrite loop_exit by lia.
  rewrite insert_singleton_eq, main_epilogue.
  unfold final_state, model_output. rewrite <- app_assoc. reflexivity.
Qed.

Lemma final_state_halted (a : Z) (v : list string) :
  step (final_state a v) = None.
Proof. unfold final_state, step. cbn [pc]. reflexivity. Qed.

(** More fuel changes nothing: the machine has halted. *)
Lemma main_halted (a : Z) (v : list string) (extra : nat) :
  run (main_fuel + extra) (init a v) = final_state a v.
Proof.
  rewrite run_halted_add.
  - rewrite <- main_eq. apply main_final.
  - rewrite <- main_eq, main_final. apply final_state_halted.
Qed.

End Main.

(** ** Invariants of the execution *)

Ltac inv_simpl :=
  cbn [live in_for in_body cycles_set registered at_eval driven_clk
       pc argc argv top cycles i vargs heap cout trace] in *.

Section Invariants.

Context {M : VerilatedModel}.

Lemma bit_event_snoc (tr : list Event) (e : Event) :
  Forall bit_event tr → bit_event e → Forall bit_event (tr ++ [e]).
Proof. intros Htr He. apply Forall_app. split; [done|]. by constructor. Qed.

Lemma Inv_init (a : Z) (v : list string) : Inv a v (init a v).
Proof.
  unfold Inv, init. inv_simpl.
  repeat split; [constructor | discriminate].
Qed.

(** Every statement keeps the shape. *)
Lemma Inv_step (a : Z) (v : list string) (s s' : State) :
  Inv a v s → step s = Some s' → Inv a v s'.
Proof.
  destruct s as [l a' v' tp cy k ctx h out tr].
  unfold Inv. inv_simpl.
  intros (-> & -> & Hctx & Hcy & Hi & Hlive & Htr & Hex) Hstep.
  state_simpl_in Hstep.
  destruct l; inv_simpl.
  all: try (destruct Hlive as (p & o & -> & Hh & Hclk)).
  all: try (destruct Hi as (j & -> & Hj & Hjb)).
  all: subst; state_simpl_in Hstep.
  all: try (rewrite lookup_singleton_eq in Hstep; state_simpl_in Hstep).
  all: try (unfold int_incr in Hstep).
  all: try case_decide.
  all: try discriminate.
  all: try (injection Hstep as <-; inv_simpl).
  all: split_and!; try done.
  (* the counter *)
  all: try (by eexists; split_and!;
              [done | lia | lia | intros; try (apply Hjb; done); lia]).
  (* the object *)
  all: try (by eexists _, _; split_and!;
              [done | rewrite ?insert_singleton_eq, ?insert_empty; done
              | cbn; intros; rewrite ?to_CData_bit by lia; done ]).
  all: try (by apply delete_singleton_eq).
  (* the log *)
  all: try (apply bit_event_snoc; [done|]; cbn;
            rewrite ?to_CData_bit by lia; auto).
  all: try (specialize (Hclk I); injection Hclk as ->; auto).
  - specialize (Hjb I). eexists; split_and!; [done | lia | lia | done].
  - by intros c [= <-].
Qed.

Lemma Inv_run (a : Z) (v : list string) (n : nat) :
  Inv a v (run n (init a v)).
Proof.
  apply run_invariant; [apply Inv_init|]. intros s1 s2. apply Inv_step.
Qed.

(** A state of that shape can always take its statement, unless [main]
    has returned: no pointer is dereferenced out of its lifetime and the
    counter does not overflow. *)
Lemma Inv_progress (a : Z) (v : list string) (s : State) :
  Inv a v s → step s = None → pc s = Exited 0.
Proof.
  destruct s as [l a' v' tp cy k ctx h out tr].
  unfold Inv. inv_simpl.
  intros (-> & -> & Hctx & Hcy & Hi & Hlive & Htr & Hex) Hstep.
  state_simpl_in Hstep.
  destruct l; inv_simpl.
  all: try (destruct Hlive as (p & o & -> & Hh & Hclk)).
  all: try (destruct Hi as (j & -> & Hj & Hjb)).
  all: subst; state_simpl_in Hstep.
  all: try (rewrite lookup_singleton_eq in Hstep; state_simpl_in Hstep).
  all: try (unfold int_incr in Hstep; specialize (Hjb I);
            rewrite decide_True in Hstep by (unfold INT_MAX; lia);
            state_simpl_in Hstep).
  all: try case_decide.
  all: try discriminate.
  f_equal. by apply Hex.
Qed.

End Invariants.

(** ** The clock port under the input-port law *)

Section Clock.

Context {M : VerilatedModel}.

Lemma ClkInv_init (a : Z) (v : list string) : ClkInv (init a v).
Proof. intros p o c _. unfold init; inv_simpl. discriminate. Qed.

(** Assignments establish the value, [eval] keeps it, nothing else
    touches the object. *)
Lemma ClkInv_step `{!ClkIsInput M} (a : Z) (v : list string) (s s' : State) :
  Inv a v s → ClkInv s → step s = Some s' → ClkInv s'.
Proof.
  destruct s as [l a' v' tp cy k ctx h out tr].
  unfold Inv, ClkInv. inv_simpl.
  intros (-> & -> & Hctx & Hcy & Hi & Hlive & Htr & Hex) Hc Hstep q o' c.
  state_simpl_in Hstep.
  destruct l; inv_simpl.
  all: try (destruct Hlive as (p & o & -> & Hh & Hclk)).
  all: try (destruct Hi as (j & -> & Hj & Hjb)).
  all: subst; state_simpl_in Hstep.
  all: try (rewrite lookup_singleton_eq in Hstep; state_simpl_in Hstep).
  all: try (unfold int_incr in Hstep).
  all: try case_decide.
  all: try discriminate.
  all: injection Hstep as <-; inv_simpl.
  all: try discriminate.
  (* statements that leave the heap alone *)
  all: try (by apply Hc).
  all: rewrite insert_singleton_eq.
  all: intros [<- <-]%lookup_singleton_Some [= <-].
  (* assignments *)
  all: try (cbn; apply to_CData_bit; lia).
  (* eval *)
  all: rewrite eval_keeps_clk.
  all: by apply (Hc p); [apply lookup_singleton_eq|].
Qed.

Lemma ClkInv_run `{!ClkIsInput M} (a : Z) (v : list string) (n : nat) :
  ClkInv (run n (init a v)).
Proof.
  cut (Inv a v (run n (init a v)) ∧ ClkInv (run n (init a v)));
    [by intros [_ ?]|].
  apply (run_invariant (λ s, Inv a v s ∧ ClkInv s)).
  - split; [apply Inv_init | apply ClkInv_init].
  - intros s1 s2 [Hi Hc] Hs. split; [by eapply Inv_step|by eapply ClkInv_step].
Qed.

End Clock.

(** ** Independence of the command line *)

Section Unwinding.

Context {M : VerilatedModel}.

Lemma driver_actions_snoc (tr : list Event) (e : Event) :
  driver_actions (tr ++ [e])
  = driver_actions tr ++ (if is_registration e then [] else [e]).
Proof.
  unfold driver_actions. rewrite filter_app. f_equal.
  by destruct e.
Qed.

Lemma same_driver_init a1 v1 a2 v2 : same_driver (init a1 v1) (init a2 v2).
Proof. unfold same_driver, init; inv_simpl. by split_and!. Qed.

Lemma same_driver_sym (s1 s2 : State) : same_driver s1 s2 → same_driver s2 s1.
Proof.
  unfold same_driver.
  intros (Hpc & Htop & Hcy & Hi & Hdom & Htr & Hclk).
  split_and!; try done.
  rewrite <- Hpc, <- Htop. intros He p Hp. symmetry. by apply Hclk.
Qed.

Lemma same_dom_lookup (h1 h2 : gmap loc (Vtop Design)) (p : loc) o1 :
  dom h1 = dom h2 → h1 !! p = Some o1 → is_Some (h2 !! p).
Proof.
  intros Hdom H1. apply elem_of_dom. rewrite <- Hdom. apply elem_of_dom.
  eauto.
Qed.

(** Whatever one run does next, a run that agrees with it so far does
    too, and they agree afterwards. *)
Lemma same_driver_step (s1 s2 s1' : State) :
  same_driver s1 s2 → step s1 = Some s1' →
  ∃ s2', step s2 = Some s2' ∧ same_driver s1' s2'.
Proof.
  destruct s1 as [l a1 v1 tp cy k ctx1 h1 out1 tr1].
  destruct s2 as [l2 a2 v2 tp2 cy2 k2 ctx2 h2 out2 tr2].
  unfold same_driver. inv_simpl.
  intros (<- & <- & <- & <- & Hdom & Htr & Hclk) Hstep.
  state_simpl_in Hstep.
  destruct l; inv_simpl.
  all: try (destruct tp as [p|]; [|discriminate];
            destruct (h1 !! p) as [o1|] eqn:H1; [|discriminate];
            destruct (same_dom_lookup h1 h2 p o1 Hdom H1) as [o2 H2]).
  all: try (destruct k as [j|]; [|discriminate]).
  all: try (destruct cy as [n|]; [|discriminate]).
  all: try (unfold int_incr in Hstep).
  all: try case_decide.
  all: try discriminate.
  all: injection Hstep as <-.
  all: eexists; split;
    [ state_simpl; rewrite ?H2; try unfold int_incr;
      first [ rewrite decide_True by done
            | rewrite decide_False by done
            | idtac ];
      state_simpl; reflexivity | ].
  all: inv_simpl; split_and!; try done.
  all: rewrite ?dom_insert_L, ?dom_delete_L, ?driver_actions_snoc,
         ?Hdom, ?Htr; try done.
  (* the clock an eval is about to find was just assigned *)
  all: try (by intros _ ? [= <-]; rewrite !lookup_insert_eq).
  (* the clock an eval found *)
  all: specialize (Hclk I p eq_refl); rewrite H1, H2 in Hclk.
  all: by injection Hclk as ->.
Qed.

Lemma same_driver_run a1 v1 a2 v2 (n : nat) :
  same_driver (run n (init a1 v1)) (run n (init a2 v2)).
Proof.
  induction n as [|n IH]; [apply same_driver_init|].
  rewrite !run_S_r.
  destruct (step (run n (init a1 v1))) as [s1'|] eqn:H1.
  - destruct (same_driver_step _ _ _ IH H1) as (s2' & -> & Hs). exact Hs.
  - destruct (step (run n (init a2 v2))) as [s2'|] eqn:H2; [|exact IH].
    apply same_driver_sym in IH.
    destruct (same_driver_step _ _ _ IH H2) as (s1' & Hs1 & _).
    congruence.
Qed.

End Unwinding.

(** ** What the loop leaves alone *)

Section Frame.

Context {M : VerilatedModel}.

Lemma loop_frame_step (s s' : State) :
  in_for (pc s) → step s = Some s' → loop_frame s s'.
Proof.
  destruct s as [l a v tp cy k ctx h out tr].
  unfold loop_frame. inv_simpl. intros Hl Hstep.
  state_simpl_in Hstep.
  destruct l; inv_simpl; try done.
  all: try (destruct tp as [p|]; [|discriminate];
            destruct (h !! p) as [o|] eqn:Hp; [|discriminate]).
  all: try (destruct k as [j|]; [|discriminate]).
  all: try (destruct cy as [n|]; [|discriminate]).
  all: try (unfold int_incr in Hstep).
  all: try case_decide.
  all: try discriminate.
  all: injection Hstep as <-; inv_simpl.
  all: split_and!; try done.
  (* an assignment or an eval replaces the object where it is *)
  all: try (apply dom_insert_lookup_L; eauto).
  (* an assignment changes the clock only *)
  all: try (intros _; split; [done|]; intros q;
            destruct (decide (p = q)) as [<-|Hne];
            [rewrite lookup_insert_eq, Hp; done
            |rewrite lookup_insert_ne by done; done]).
Qed.

End Frame.

(** ** The path of an execution *)

Ltac path_step tac :=
  erewrite path_cons; last by (state_simpl; tac; state_simpl; reflexivity).

Section Paths.

Context {M : VerilatedModel}.

Lemma path_halted_add (n m : nat) (s : State) :
  step (run n s) = None → path (n + m) s = path n s.
Proof.
  intros Hs. rewrite path_add, (path_stuck _ _ Hs). apply app_nil_r.
Qed.

Lemma path_tail_add (a b : nat) (s : State) :
  tail (path (a + b) s) = tail (path a s) ++ tail (path b (run a s)).
Proof. rewrite path_add. by destruct a. Qed.

Lemma body_entries_cons (s : State) (l : list State) :
  body_entries (s :: l)
  = if decide (pc s = L15_clk1) then s :: body_entries l else body_entries l.
Proof. unfold body_entries. by rewrite filter_cons. Qed.

Lemma body_entries_app (l1 l2 : list State) :
  body_entries (l1 ++ l2) = body_entries l1 ++ body_entries l2.
Proof. apply filter_app. Qed.

(** One cycle enters the body once, with the counter it started with. *)
Lemma cycle_entries a v p n k ctx h out tr o :
  h !! p = Some o →
  k < n → n ≤ INT_MAX →
  i <$> body_entries (tail (path 6 (at_test a v p n k ctx h out tr)))
  = [Some k].
Proof.
  intros Hp Hk Hn. unfold at_test.
  path_step ltac:(rewrite decide_True by done).
  path_step ltac:(rewrite Hp).
  path_step ltac:(rewrite lookup_insert_eq).
  path_step ltac:(rewrite lookup_insert_eq).
  path_step ltac:(rewrite lookup_insert_eq).
  path_step ltac:(unfold int_incr; rewrite decide_True by lia).
  cbn [path tail].
  rewrite !body_entries_cons. cbn [pc].
  rewrite decide_True by done. rewrite !decide_False by done.
  reflexivity.
Qed.

(** [m] cycles enter the body [m] times, the counter going up by one. *)
Lemma cycles_entries (m : nat) a v p n k ctx h out tr o :
  h !! p = Some o →
  k + Z.of_nat m ≤ n → n ≤ INT_MAX →
  i <$> body_entries (tail (path (6 * m) (at_test a v p n k ctx h out tr)))
  = (λ j : nat, Some (k + Z.of_nat j)) <$> seq 0 m.
Proof.
  revert k h out tr o.
  induction m as [|m IH]; intros k h out tr o Hp Hk Hn; [reflexivity|].
  replace (6 * S m)%nat with (6 + 6 * m)%nat by lia.
  rewrite path_tail_add, body_entries_app, fmap_app.
  rewrite (cycle_entries _ _ _ _ _ _ _ _ _ o) by (done || lia).
  rewrite (loop_cycle _ _ _ _ _ _ _ _ _ o) by (done || lia).
  rewrite (IH _ _ _ _ (cycle ctx o).1) by (apply lookup_insert_eq || lia).
  cbn [seq fmap list_fmap app]. rewrite Z.add_0_r. f_equal.
  rewrite <- fmap_S_seq, <- list_fmap_compose.
  apply list_fmap_ext. intros _ j _. cbn. f_equal. lia.
Qed.

End Paths.

(** ** Cycle by cycle *)

Section Cycles.

Context {M : VerilatedModel}.

(** The state at the loop test that opens cycle [j] (for [j = 10]: the
    test that ends the loop). *)
Lemma run_cycle_start (a : Z) (v : list string) (j : nat) :
  (j ≤ 10)%nat →
  run (cycle_start j) (init a v)
  = at_test a v first_loc 10 (Z.of_nat j) (Some (a, v))
      {[first_loc := (simulate (Some (a, v)) j (first_object a v)).1]}
      (simulate (Some (a, v)) j (first_object a v)).2
      (prologue_events a v ++ mjoin (replicate j (cycle_events first_loc))).
Proof.
  intros Hj. unfold cycle_start.
  rewrite run_add, main_prologue.
  rewrite (loop_cycles j _ _ _ _ _ _ _ _ _ (first_object a v))
    by (apply lookup_singleton_eq || unfold INT_MAX; lia).
  rewrite insert_singleton_eq. reflexivity.
Qed.

(** The state in which the loop is left. *)
Lemma run_loop_exit (a : Z) (v : list string) :
  run (cycle_start 10 + 1) (init a v)
  = mkState L23_cout a v (Some first_loc) (Some 10) None (Some (a, v))
      {[first_loc := (simulate (Some (a, v)) 10 (first_object a v)).1]}
      (model_output a v)
      (prologue_events a v ++ mjoin (replicate 10 (cycle_events first_loc))).
Proof.
  rewrite run_add, run_cycle_start by lia.
  rewrite loop_exit by lia. reflexivity.
Qed.

Lemma prologue_entries (a : Z) (v : list string) :
  body_entries (path 5 (init a v)) = [].
Proof.
  unfold init.
  path_step idtac.
  path_step ltac:(rewrite first_loc_empty).
  path_step ltac:(rewrite lookup_insert_eq).
  path_step idtac.
  path_step idtac.
  cbn [path].
  rewrite !body_entries_cons. cbn [pc].
  rewrite !decide_False by done. reflexivity.
Qed.

Lemma epilogue_entries a v p n k ctx o out tr :
  n ≤ k →
  body_entries
    (tail (path 4 (at_test a v p n k ctx {[p := o]} out tr))) = [].
Proof.
  intros Hk. unfold at_test.
  path_step ltac:(rewrite decide_False by lia).
  path_step idtac.
  path_step ltac:(rewrite lookup_singleton_eq).
  path_step idtac.
  cbn [path tail].
  rewrite !body_entries_cons. cbn [pc].
  rewrite !decide_False by done. reflexivity.
Qed.

(** The body is entered ten times over the whole run, with the counter
    at 0, 1, ..., 9. *)
Lemma main_entries (a : Z) (v : list string) :
  i <$> body_entries (path main_fuel (init a v))
  = (λ j : nat, Some (Z.of_nat j)) <$> seq 0 10.
Proof.
  unfold main_fuel.
  replace (5 + 6 * 10 + 1 + 3)%nat with (5 + (6 * 10 + 4))%nat by lia.
  rewrite path_add, body_entries_app, prologue_entries, app_nil_l.
  rewrite main_prologue, path_tail_add, body_entries_app, fmap_app.
  rewrite (cycles_entries 10 _ _ _ _ _ _ _ _ _ (first_object a v))
    by (apply lookup_singleton_eq || unfold INT_MAX; lia).
  rewrite (loop_cycles 10 _ _ _ _ _ _ _ _ _ (first_object a v))
    by (apply lookup_singleton_eq || unfold INT_MAX; lia).
  rewrite insert_singleton_eq, epilogue_entries by lia.
  rewrite app_nil_r. reflexivity.
Qed.

End Cycles.

(** ** Reading the log of a whole run *)

Section Logs.

Context {A : Type} (f : Event → option A).

Lemma omap_join_replicate (m : nat) (l : list Event) :
  omap f (mjoin (replicate m l)) = mjoin (replicate m (omap f l)).
Proof.
  induction m as [|m IH]; [reflexivity|].
  change (mjoin (replicate (S m) l)) with (l ++ mjoin (replicate m l)).
  change (mjoin (replicate (S m) (omap f l)))
    with (omap f l ++ mjoin (replicate m (omap f l))).
  by rewrite omap_app, IH.
Qed.

(** The readings of the actions of a run: those of the prologue, of the
    ten cycles and of the epilogue. *)
Lemma omap_final_trace (a : Z) (v : list string) :
  omap f (prologue_events a v
            ++ mjoin (replicate 10 (cycle_events first_loc))
            ++ epilogue_events)
  = omap f (prologue_events a v)
      ++ mjoin (replicate 10 (omap f (cycle_events first_loc)))
      ++ omap f epilogue_events.
Proof. by rewrite !omap_app, omap_join_replicate. Qed.

End Logs.

Section MainLog.

Context {M : VerilatedModel}.

Lemma main_trace (a : Z) (v : list string) :
  trace (main a v)
  = prologue_events a v
      ++ mjoin (replicate 10 (cycle_events first_loc))
      ++ epilogue_events.
Proof. by rewrite main_final. Qed.

Lemma main_eval_clocks (a : Z) (v : list string) :
  eval_clocks (trace (main a v)) = mjoin (replicate 10 [1; 0]).
Proof.
  rewrite main_trace. unfold eval_clocks. rewrite omap_final_trace.
  reflexivity.
Qed.

Lemma main_clk_writes (a : Z) (v : list string) :
  clk_writes (trace (main a v)) = 0 :: mjoin (replicate 10 [1; 0]).
Proof.
  rewrite main_trace. unfold clk_writes. rewrite omap_final_trace.
  reflexivity.
Qed.

Lemma main_cout_writes (a : Z) (v : list string) :
  cout_writes (trace (main a v)) = [Sim_done].
Proof.
  rewrite main_trace. unfold cout_writes. rewrite omap_final_trace.
  reflexivity.
Qed.

Lemma main_registrations (a : Z) (v : list string) :
  registrations (trace (main a v)) = [(a, v)].
Proof.
  rewrite main_trace. unfold registrations. rewrite omap_final_trace.
  reflexivity.
Qed.

Lemma main_allocations (a : Z) (v : list string) :
  allocations (trace (main a v)) = [first_loc].
Proof.
  rewrite main_trace. unfold allocations. rewrite omap_final_trace.
  reflexivity.
Qed.

Lemma main_deallocations (a : Z) (v : list string) :
  deallocations (trace (main a v)) = [first_loc].
Proof.
  rewrite main_trace. unfold deallocations. rewrite omap_final_trace.
  reflexivity.
Qed.

(** With a model that ignores the registered command line, the model's
    side of a run does not depend on it. *)
Lemma simulate_ctx (ctx1 ctx2 : VerilatedCtx) (m : nat) (o : Vtop Design) :
  (∀ c1 c2 o', Vtop_eval c1 o' = Vtop_eval c2 o') →
  simulate ctx1 m o = simulate ctx2 m o.
Proof.
  intros He. revert o. induction m as [|m IH]; intros o; [reflexivity|].
  cbn [simulate]. unfold cycle.
  rewrite (He ctx1 ctx2 (set_clk 1 o)).
  rewrite (He ctx1 ctx2 (set_clk 0 (Vtop_eval ctx2 (set_clk 1 o)).1)).
  cbn [fst snd]. by rewrite IH.
Qed.

End MainLog.

(** ** The sample models *)

Lemma SilentModel_input : ClkIsInput SilentModel.
Proof. intros ctx o. reflexivity. Qed.

Lemma EdgeCounter_input : ClkIsInput EdgeCounter.
Proof. intros ctx [c d]. cbn. by case_decide. Qed.

Lemma EchoModel_input : ClkIsInput EchoModel.
Proof. intros ctx o. reflexivity. Qed.


(** ** Further facts for the claims *)

Section Further.

Context {M : VerilatedModel}.

(** Which statements assign the locals other than the counter. *)
Lemma step_init_only (s s' : State) : step s = Some s' → init_only s s'.
Proof.
  destruct s as [l a v tp cy k ctx h out tr].
  unfold init_only. inv_simpl. intros Hstep.
  state_simpl_in Hstep.
  destruct l; inv_simpl.
  all: try (destruct tp as [p|]; [|discriminate];
            destruct (h !! p) as [o|] eqn:Hp; [|discriminate]).
  all: try (destruct k as [j|]; [|discriminate]).
  all: try (destruct cy as [n|]; [|discriminate]).
  all: try (unfold int_incr in Hstep).
  all: try case_decide.
  all: try discriminate.
  all: injection Hstep as <-; inv_simpl.
  all: by split_and!.
Qed.

(** A statement that goes through [top] has no outcome without it. *)
Lemma step_needs_top (s : State) :
  uses_top (pc s) → step (with_top None s) = None.
Proof.
  destruct s as [l a v tp cy k ctx h out tr]. cbn [pc].
  destruct l; cbn [uses_top]; try done; intros _; state_simpl; reflexivity.
Qed.

(** The loop test goes where [cycles] sends it. *)
Lemma test_reads_cycles (s : State) (k n : Z) :
  pc s = L13_test → i s = Some k →
  pc <$> step (with_cycles (Some n) s)
  = Some (if decide (k < n) then L15_clk1 else L23_cout).
Proof.
  destruct s as [l a v tp cy j ctx h out tr]. cbn [pc i].
  intros -> ->. state_simpl. by case_decide.
Qed.

(** [top] only ever holds the address of the first allocation. *)
Lemma top_first_loc (a : Z) (v : list string) (n : nat) (p : loc) :
  top (run n (init a v)) = Some p → p = first_loc.
Proof.
  revert p.
  cut (Inv a v (run n (init a v))
       ∧ ∀ p, top (run n (init a v)) = Some p → p = first_loc);
    [by intros [_ ?]|].
  apply (run_invariant (λ s, Inv a v s ∧ ∀ p, top s = Some p → p = first_loc)).
  - split; [apply Inv_init|]. unfold init; cbn [top]. discriminate.
  - intros s1 s2 [Hinv Htop] Hstep. split; [by eapply Inv_step|].
    destruct (decide (pc s1 = L7_new)) as [Hpc|Hpc].
    + destruct Hinv as (_ & _ & _ & _ & _ & Hlive & _).
      rewrite Hpc in Hlive. cbn [live] in Hlive.
      destruct s1 as [l a' v' tp cy k ctx h out tr].
      cbn [pc heap] in *. subst l h.
      state_simpl_in Hstep. injection Hstep as <-. cbn [top].
      intros p [= <-]. apply first_loc_empty.
    + destruct (step_init_only _ _ Hstep) as (_ & _ & Ht & _).
      rewrite (Ht Hpc). exact Htop.
Qed.

(** The shape of the heap at every point, with the address named. *)
Lemma heap_shape (a : Z) (v : list string) (n : nat) :
  let s := run n (init a v) in
  if live (pc s)
  then top s = Some first_loc ∧
       ∃ o, heap s = {[first_loc := o]} ∧
            (at_eval (pc s) → Some (clk o) = driven_clk (pc s))
  else heap s = ∅.
Proof.
  cbv zeta.
  destruct (Inv_run a v n) as (_ & _ & _ & _ & _ & Hlive & _).
  destruct (live (pc (run n (init a v)))); [|done].
  destruct Hlive as (p & o & Htop & Hheap & Hclk).
  pose proof (top_first_loc a v n p Htop) as ->. eauto.
Qed.

(** Right after [new]. *)
Lemma run_after_new (a : Z) (v : list string) :
  run 2 (init a v)
  = mkState L10_clk0 a v (Some first_loc) None None (Some (a, v))
      {[first_loc := Vtop_new (Some (a, v))]} ""
      [EvCommandArgs a v; EvNew first_loc].
Proof.
  unfold init.
  run_step idtac.
  run_step ltac:(rewrite first_loc_empty).
  cbn [run]. rewrite insert_empty. reflexivity.
Qed.

(** At [delete] and right after it. *)
Lemma run_at_delete (a : Z) (v : list string) :
  run (cycle_start 10 + 2) (init a v)
  = mkState L24_delete a v (Some first_loc) (Some 10) None (Some (a, v))
      {[first_loc := (simulate (Some (a, v)) 10 (first_object a v)).1]}
      (model_output a v +:+ Sim_done)
      (prologue_events a v ++ mjoin (replicate 10 (cycle_events first_loc))
         ++ [EvCout Sim_done]).
Proof.
  replace (cycle_start 10 + 2)%nat with (cycle_start 10 + 1 + 1)%nat by lia.
  rewrite (run_add (cycle_start 10 + 1) 1), run_loop_exit.
  run_step idtac. cbn [run]. by rewrite <- app_assoc.
Qed.

Lemma run_after_delete (a : Z) (v : list string) :
  run (cycle_start 10 + 3) (init a v)
  = mkState L25_return a v (Some first_loc) (Some 10) None (Some (a, v)) ∅
      (model_output a v +:+ Sim_done)
      (prologue_events a v ++ mjoin (replicate 10 (cycle_events first_loc))
         ++ [EvCout Sim_done; EvDelete first_loc]).
Proof.
  replace (cycle_start 10 + 3)%nat with (cycle_start 10 + 2 + 1)%nat by lia.
  rewrite (run_add (cycle_start 10 + 2) 1), run_at_delete.
  run_step ltac:(rewrite lookup_singleton_eq). cbn [run].
  rewrite delete_singleton_eq, <- !app_assoc. reflexivity.
Qed.

(** The two [eval] calls of a cycle: where control is and what the port
    holds when each is made. *)
Lemma cycle_eval_states a v p n k ctx h out tr o :
  h !! p = Some o →
  k < n →
  let s := at_test a v p n k ctx h out tr in
  pc (run 2 s) = L16_eval ∧
  clk <$> heap (run 2 s) !! p = Some 1 ∧
  pc (run 4 s) = L20_eval ∧
  clk <$> heap (run 4 s) !! p = Some 0.
Proof.
  intros Hp Hk. cbv zeta. unfold at_test.
  assert (run 2 (mkState L13_test a v (Some p) (Some n) (Some k) ctx h
                   out tr)
          = mkState L16_eval a v (Some p) (Some n) (Some k) ctx
              (<[p := set_clk 1 o]> h) out
              (tr ++ [EvSetClk p (to_CData 1)])) as H2.
  { run_step ltac:(rewrite decide_True by done).
    run_step ltac:(rewrite Hp).
    reflexivity. }
  replace 4%nat with (2 + 2)%nat by lia. rewrite (run_add 2 2), H2.
  cbn [pc heap]. rewrite lookup_insert_eq.
  split_and!; [reflexivity | reflexivity | |].
  all: run_step ltac:(rewrite lookup_insert_eq).
  all: run_step ltac:(rewrite lookup_insert_eq).
  all: cbn [run pc heap]; rewrite ?lookup_insert_eq; reflexivity.
Qed.

End Further.

(** In a log of cycles, a call that found the clock low comes right
    after one that found it high. *)
Lemma low_after_high (m n : nat) :
  mjoin (replicate m [1; 0]) !! n = Some 0 →
  ∃ k, n = S k ∧ mjoin (replicate m [1; 0]) !! k = Some 1.
Proof.
  revert n. induction m as [|m IH]; intros n; [done|].
  change (mjoin (replicate (S m) [1; 0]))
    with (1 :: 0 :: mjoin (replicate m [1; 0])).
  destruct n as [|[|n]]; [done | by exists 0%nat |].
  intros Hn. destruct (IH n Hn) as (k & -> & Hk).
  by exists (S (S k)).
Qed.

(** The tally simulates the edge counter. *)
Lemma tally_rel_set_clk (c : Z) o1 o2 :
  tally_rel o1 o2 → tally_rel (set_clk c o1) (set_clk c o2).
Proof. intros (Hclk & Hflag & Hcount). by split_and!. Qed.

Lemma tally_rel_eval (ctx : VerilatedCtx) o1 o2 :
  tally_rel o1 o2 →
  tally_rel (Vtop_eval (VerilatedModel:=EdgeCounter) ctx o1).1
            (Vtop_eval (VerilatedModel:=TallyModel) ctx o2).1 ∧
  (Vtop_eval (VerilatedModel:=EdgeCounter) ctx o1).2
  = (Vtop_eval (VerilatedModel:=TallyModel) ctx o2).2.
Proof.
  destruct o1 as [c1 [l1 e1]], o2 as [c2 [f2 t2]].
  unfold tally_rel. cbn. intros (-> & Hflag & ->).
  assert (l1 = 0 ↔ f2 = false) as Hflag' by exact Hflag.
  destruct (decide (l1 = 0 ∧ c2 = 1)) as [[Hl ->]|Hn].
  - rewrite (proj1 Hflag' Hl). cbn. split; [|done].
    split_and!; [done | split; intros; [done|lia] | lia].
  - assert (negb f2 && (c2 =? 1) = false) as ->.
    { destruct f2; [done|]. cbn.
      apply Z.eqb_neq. intros ->. apply Hn. split; [|done]. by apply Hflag'. }
    cbn. split; [|done]. split_and!; [done | | done].
    destruct (Z.eqb_spec c2 0); cbn; split; intros; (done || lia).
Qed.

(** Runs of the driver on the sample models. *)

Example EdgeCounter_cout :
  cout (main (M:=EdgeCounter) 1 ["Vtop"])
  = repeat_text 10 ("tick" +:+ newline) +:+ Sim_done.
Proof. rewrite main_final. vm_compute. reflexivity. Qed.

Example EdgeCounter_edges :
  edges (design (simulate (M:=EdgeCounter) None 10 (mkVtop 0 (mkEdgeCounter 0 0))).1)
  = 10.
Proof. vm_compute. reflexivity. Qed.

Example SilentModel_exit :
  exit_status (main (M:=SilentModel) 3 ["Vtop"; "+trace"; "+seed=1"])
  = Some 0.
Proof. rewrite main_final. reflexivity. Qed.

(** The command line reaches the model through the runtime: a design
    that reads it prints differently under different command lines. *)
Example EchoModel_cout :
  cout (main (M:=EchoModel) 1 ["a"])
  = repeat_text 10 "a" +:+ Sim_done
  ∧ cout (main (M:=EchoModel) 1 ["b"])
    = repeat_text 10 "b" +:+ Sim_done.
Proof. rewrite !main_final. split; vm_compute; reflexivity. Qed.

(** A design that writes its clock port is still evaluated on the
    clock values the driver assigns, but the port does not rest at 0: the
    input-port law is what the facts about the port itself rest on. *)
Example ScribbleModel_port :
  eval_clocks (trace (main (M:=ScribbleModel) 1 ["Vtop"]))
  = mjoin (replicate 10 [1; 0])
  ∧ clk <$> heap (run (cycle_start 10 + 1)
                    (init (M:=ScribbleModel) 1 ["Vtop"])) !! first_loc
    = Some 7.
Proof.
  split; [apply main_eval_clocks|].
  rewrite run_loop_exit. cbn [heap]. rewrite lookup_singleton_eq.
  vm_compute. reflexivity.
Qed.

(** * The claims of the specification *)

(** C1.  The driver advances the model on each clock edge.  Cycle [j]
    (0 to 9) starts at the loop test with the counter at [j]; during it
    the driver assigns 1 to [clk], calls [eval], assigns 0 to [clk], calls
    [eval] again, and does nothing else, which takes it to the next loop
    test.  The calls are made on the model: the object the cycle ends with
    is what [eval] returns for the clock at 0 on what [eval] returned for
    the clock at 1 on the object the cycle started with, and standard
    output has grown by the text of these two calls, in this order.  Over
    the whole run the [eval] calls find the clock at 1, 0, 1, 0, ...: two
    calls per cycle, twenty in all. *)
Theorem C1_eval_on_each_edge `{M : VerilatedModel}
    (argc : Z) (argv : list string) (j : nat) :
  (j < 10)%nat →
  let s := run (cycle_start j) (init argc argv) in
  let s' := run (cycle_start (S j)) (init argc argv) in
  pc s = L13_test ∧ i s = Some (Z.of_nat j) ∧ pc s' = L13_test ∧
  trace s' = trace s ++ [EvSetClk first_loc 1; EvEval first_loc 1;
                         EvSetClk first_loc 0; EvEval first_loc 0] ∧
  (∃ o, heap s = {[first_loc := o]} ∧
        let rising := Vtop_eval (Some (argc, argv)) (set_clk 1 o) in
        let falling := Vtop_eval (Some (argc, argv)) (set_clk 0 rising.1) in
        heap s' = {[first_loc := falling.1]} ∧
        cout s' = cout s +:+ rising.2 +:+ falling.2) ∧
  eval_clocks (trace (main argc argv)) = mjoin (replicate 10 [1; 0]) ∧
  length (eval_clocks (trace (main argc argv))) = (2 * 10)%nat.
Proof.
  intros Hj. cbv zeta.
  replace (cycle_start (S j)) with (cycle_start j + 6)%nat
    by (unfold cycle_start; lia).
  rewrite run_add, run_cycle_start by lia.
  rewrite (loop_cycle _ _ _ _ _ _ _ _ _
             (simulate (Some (argc, argv)) j (first_object argc argv)).1)
    by (apply lookup_singleton_eq || unfold INT_MAX; lia).
  unfold at_test. cbn [pc i trace heap cout]. rewrite insert_singleton_eq.
  split_and!; [reflexivity | reflexivity | reflexivity | reflexivity | | | ].
  - eexists. split; [reflexivity|]. unfold cycle. cbn [fst snd].
    split; reflexivity.
  - apply main_eval_clocks.
  - by rewrite main_eval_clocks.
Qed.

(** C1 at the fourth cycle of a run of the edge counter. *)
Lemma C1_eval_on_each_edge_witness :
  (3 < 10)%nat ∧
  trace (run (cycle_start 4) (init (M:=EdgeCounter) 1 ["Vtop"]))
  = trace (run (cycle_start 3) (init (M:=EdgeCounter) 1 ["Vtop"]))
      ++ cycle_events first_loc.
Proof.
  split; [lia|].
  apply (C1_eval_on_each_edge (M:=EdgeCounter) 1 ["Vtop"] 3). lia.
Defined.

(** C2.  The loop runs exactly [cycles] = 10 iterations and then ends:
    along the whole execution, however long it is observed, the loop body
    is entered ten times, with the counter at 0, 1, ..., 9; after the
    tenth iteration the test fails and control is at the statement after
    the loop; and the program halts. *)
Theorem C2_ten_iterations `{M : VerilatedModel}
    (argc : Z) (argv : list string) (extra : nat) :
  let states := path (main_fuel + extra) (init argc argv) in
  i <$> body_entries states = (λ j : nat, Some (Z.of_nat j)) <$> seq 0 10 ∧
  length (body_entries states) = 10%nat ∧
  pc (run (cycle_start 10) (init argc argv)) = L13_test ∧
  pc (run (cycle_start 10 + 1) (init argc argv)) = L23_cout ∧
  step (run (main_fuel + extra) (init argc argv)) = None.
Proof.
  cbv zeta.
  assert (step (run main_fuel (init argc argv)) = None) as Hhalt.
  { rewrite <- main_eq, main_final. apply final_state_halted. }
  rewrite path_halted_add by done.
  split_and!.
  - apply main_entries.
  - rewrite <- (length_fmap i), main_entries, length_fmap. apply length_seq.
  - by rewrite run_cycle_start.
  - by rewrite run_loop_exit.
  - rewrite main_halted. apply final_state_halted.
Qed.

(** C3 (as amended).  The driver has one observable effect of its own
    besides the model's output: standard output receives the text printed
    by the model's [eval] calls (all of it there when the loop is left),
    followed by the line ["Sim done\n"], which is the only text the driver
    writes. *)
Theorem C3_driver_output `{M : VerilatedModel}
    (argc : Z) (argv : list string) :
  cout (run (cycle_start 10 + 1) (init argc argv)) = model_output argc argv ∧
  cout (main argc argv) = model_output argc argv +:+ Sim_done ∧
  cout_writes (trace (main argc argv)) = [Sim_done].
Proof.
  split_and!.
  - by rewrite run_loop_exit.
  - by rewrite main_final.
  - apply main_cout_writes.
Qed.

(** C3 as stated fails: with a model whose [eval] prints nothing, standard
    output still is not what the model printed, and the driver's own
    writes are not none. *)
Lemma C3_driver_writes_counterexample :
  model_output (M:=SilentModel) 1 ["Vtop"] = "" ∧
  cout (main (M:=SilentModel) 1 ["Vtop"])
    ≠ model_output (M:=SilentModel) 1 ["Vtop"] ∧
  cout_writes (trace (main (M:=SilentModel) 1 ["Vtop"])) ≠ [].
Proof.
  split_and!.
  - reflexivity.
  - rewrite main_final. discriminate.
  - rewrite main_cout_writes. discriminate.
Qed.

(** C4.  The command line decides nothing in the driver.  Two runs under
    any two command lines stay in step for ever: same program point, same
    pointer and counters, same set of live objects, same actions apart
    from the forwarding itself, same clock found by each [eval].  Both go
    through ten cycles, assign and evaluate the same clock values and
    return the same status.  The command line is only handed to
    [Verilated::commandArgs]; with a model that does not consult the
    runtime for it, output and heap agree as well. *)
Theorem C4_argv_independence `{M : VerilatedModel}
    (a1 : Z) (v1 : list string) (a2 : Z) (v2 : list string) :
  (∀ fuel, same_driver (run fuel (init a1 v1)) (run fuel (init a2 v2))) ∧
  length (body_entries (path main_fuel (init a1 v1))) = 10%nat ∧
  length (body_entries (path main_fuel (init a2 v2))) = 10%nat ∧
  driver_actions (trace (main a1 v1)) = driver_actions (trace (main a2 v2)) ∧
  clk_writes (trace (main a1 v1)) = clk_writes (trace (main a2 v2)) ∧
  eval_clocks (trace (main a1 v1)) = eval_clocks (trace (main a2 v2)) ∧
  exit_status (main a1 v1) = exit_status (main a2 v2) ∧
  registrations (trace (main a1 v1)) = [(a1, v1)] ∧
  ((∀ c1 c2, Vtop_new c1 = Vtop_new c2) →
   (∀ c1 c2 o, Vtop_eval c1 o = Vtop_eval c2 o) →
   cout (main a1 v1) = cout (main a2 v2) ∧
   heap (main a1 v1) = heap (main a2 v2)).
Proof.
  assert (∀ a v, length (body_entries (path main_fuel (init a v))) = 10%nat)
    as Hten.
  { intros a v.
    rewrite <- (length_fmap i), main_entries, length_fmap.
    apply length_seq. }
  split_and!.
  - intros fuel. apply same_driver_run.
  - apply Hten.
  - apply Hten.
  - rewrite !main_eq. apply (same_driver_run a1 v1 a2 v2 main_fuel).
  - by rewrite !main_clk_writes.
  - by rewrite !main_eval_clocks.
  - by rewrite !main_final.
  - apply main_registrations.
  - intros Hnew Heval. rewrite !main_final. cbn [cout heap final_state].
    split; [|reflexivity]. f_equal. unfold model_output.
    rewrite (Hnew (Some (a1, v1)) (Some (a2, v2))).
    by rewrite (simulate_ctx (Some (a1, v1)) (Some (a2, v2))).
Qed.

(** C5.  [main] has no error path: it reaches its [return] and yields the
    status 0, after which nothing more happens; along the way the machine
    never lacks a next statement (no pointer is used out of its lifetime,
    the counter does not overflow), and no state carries another status. *)
Theorem C5_returns_zero `{M : VerilatedModel}
    (argc : Z) (argv : list string) :
  exit_status (main argc argv) = Some 0 ∧
  (∀ extra, run (main_fuel + extra) (init argc argv) = main argc argv) ∧
  (∀ fuel, step (run fuel (init argc argv)) = None →
           exit_status (run fuel (init argc argv)) = Some 0) ∧
  (∀ fuel c, exit_status (run fuel (init argc argv)) = Some c → c = 0).
Proof.
  split_and!.
  - by rewrite main_final.
  - intros extra. by rewrite main_halted, main_final.
  - intros fuel Hs. unfold exit_status.
    by rewrite (Inv_progress _ _ _ (Inv_run argc argv fuel) Hs).
  - intros fuel c. unfold exit_status.
    destruct (Inv_run argc argv fuel) as (_ & _ & _ & _ & _ & _ & _ & Hex).
    destruct (pc (run fuel (init argc argv))) eqn:Hpc; try discriminate.
    intros [= <-]. by apply Hex.
Qed.

(** C6 (corrected).  The state the driver changes while it runs the model
    is the clock and the loop counter; its other locals are initialised
    once and kept.  At every point of every execution: inside the [for]
    statement the counter is between 0 and [cycles] = 10, elsewhere it is
    out of scope; every clock value the driver has assigned, and every one
    an [eval] has found, is 0 or 1; once the driver has assigned the
    clock, the port holds 0 or 1 (given that [eval] does not drive its
    input); a statement inside the loop changes, apart from the counter
    and the clock, nothing of its own: parameters, pointer, [cycles],
    registered command line and the set of objects stay, and output and
    design state change in [eval] calls only.  The other driver state is
    there and is read, but not modified after its initialisation: [argc]
    and [argv] are those [main] was called with, [top] holds nothing or
    the address [new] returned, [cycles] nothing or 10, and no statement
    assigns [argc] or [argv], none but line 7 assigns [top] and none but
    line 11 assigns [cycles].  They are read: line 6 registers [argc] and
    [argv]; the loop test leaves the loop or enters the body according to
    [cycles]; and the clock assignments, the [eval] calls and [delete],
    which all have an outcome, have none without [top]. *)
Theorem C6_clock_and_counter `{M : VerilatedModel}
    (a : Z) (v : list string) (fuel : nat) :
  let s := run fuel (init a v) in
  (if in_for (pc s)
   then ∃ k, i s = Some k ∧ cycles s = Some 10 ∧ 0 ≤ k ≤ 10
   else i s = None) ∧
  Forall bit_event (trace s) ∧
  (ClkIsInput M →
   ∀ p o, heap s !! p = Some o → is_Some (driven_clk (pc s)) →
          clk o = 0 ∨ clk o = 1) ∧
  (in_for (pc s) → ∀ s', step s = Some s' → loop_frame s s') ∧
  argc s = a ∧ argv s = v ∧
  (∀ p, top s = Some p → p = first_loc) ∧
  (∀ n, cycles s = Some n → n = 10) ∧
  (∀ s', step s = Some s' → init_only s s') ∧
  (pc s = L6_commandArgs →
   vargs <$> step s = Some (Some (argc s, argv s))) ∧
  (pc s = L13_test →
   pc <$> step (with_cycles (Some 0) s) = Some L23_cout ∧
   pc <$> step (with_cycles (Some 11) s) = Some L15_clk1) ∧
  (uses_top (pc s) → is_Some (step s) ∧ step (with_top None s) = None).
Proof.
  cbv zeta.
  destruct (Inv_run a v fuel)
    as (Ha & Hv & _ & Hcy & Hi & _ & Htr & _).
  split_and!.
  - destruct (in_for (pc (run fuel (init a v)))) eqn:Hfor; [|done].
    destruct Hi as (k & Hk & [Hlo Hhi] & _). exists k.
    split_and!; [done | | done | done].
    rewrite Hcy. revert Hfor.
    by destruct (pc (run fuel (init a v))).
  - done.
  - intros Hlaw p o Hp [c Hc].
    pose proof (ClkInv_run a v fuel p o c Hp Hc) as ->.
    destruct (pc (run fuel (init a v))); cbn in Hc;
      try discriminate; injection Hc as <-; auto.
  - intros Hfor s'. by apply loop_frame_step.
  - exact Ha.
  - exact Hv.
  - apply top_first_loc.
  - intros n. rewrite Hcy.
    destruct (cycles_set (pc (run fuel (init a v)))); [|done].
    by intros [= <-].
  - intros s'. apply step_init_only.
  - destruct (run fuel (init a v)) as [l a' v' tp cy k ctx h out tr].
    cbn [pc argc argv]. intros ->. state_simpl. reflexivity.
  - intros Hpc. rewrite Hpc in Hi. cbn [in_for] in Hi.
    destruct Hi as (k & Hk & [Hlo Hhi] & _).
    rewrite !(test_reads_cycles _ k) by done.
    rewrite decide_False, decide_True by lia. done.
  - intros Huse. split; [|by apply step_needs_top].
    destruct (step (run fuel (init a v))) as [s'|] eqn:Hs; [by eexists|].
    apply (Inv_progress a v) in Hs; [|apply Inv_run].
    rewrite Hs in Huse. done.
Qed.

(** C6 for the edge counter, thirty statements into a run: the port
    holds one bit. *)
Lemma C6_clock_and_counter_witness :
  ∃ o, heap (run 30 (init (M:=EdgeCounter) 1 ["Vtop"])) !! first_loc = Some o
       ∧ (clk o = 0 ∨ clk o = 1).
Proof.
  destruct (C6_clock_and_counter (M:=EdgeCounter) 1 ["Vtop"] 30)
    as (_ & _ & Hclk & _).
  eexists. split; [vm_compute; reflexivity|].
  apply (Hclk EdgeCounter_input first_loc); [vm_compute; reflexivity|].
  vm_compute. eauto.
Defined.

(** C6 as stated fails: the driver has more state than the clock and the
    counter, and it writes and reads it.  In a run over the silent model,
    line 7 changes [top] and line 11 changes [cycles]; the loop test goes
    the other way when [cycles] is replaced, so it reads [cycles]; and the
    clock assignment of line 15 has no outcome when [top] is replaced by
    a pointer to nothing, so it reads [top]. *)
Lemma C6_other_state_counterexample :
  top (run 1 (init (M:=SilentModel) 1 ["Vtop"])) = None ∧
  top (run 2 (init (M:=SilentModel) 1 ["Vtop"])) = Some first_loc ∧
  cycles (run 3 (init (M:=SilentModel) 1 ["Vtop"])) = None ∧
  cycles (run 4 (init (M:=SilentModel) 1 ["Vtop"])) = Some 10 ∧
  pc <$> step (run 5 (init (M:=SilentModel) 1 ["Vtop"])) = Some L15_clk1 ∧
  pc <$> step (with_cycles (Some 0)
                 (run 5 (init (M:=SilentModel) 1 ["Vtop"])))
  = Some L23_cout ∧
  pc <$> step (run 6 (init (M:=SilentModel) 1 ["Vtop"])) = Some L16_eval ∧
  step (with_top None (run 6 (init (M:=SilentModel) 1 ["Vtop"]))) = None.
Proof.
  split_and!; vm_compute; reflexivity.
Qed.

(** In a log of cycles, a call that found the clock high is followed by
    one that finds it low. *)
Lemma high_then_low (m n : nat) :
  mjoin (replicate m [1; 0]) !! n = Some 1 →
  mjoin (replicate m [1; 0]) !! S n = Some 0.
Proof.
  revert n. induction m as [|m IH]; intros n; [done|].
  change (mjoin (replicate (S m) [1; 0]))
    with (1 :: 0 :: mjoin (replicate m [1; 0])).
  destruct n as [|[|n]]; [done | done |]. apply IH.
Qed.

Lemma cycle_events_use (p : loc) : Forall (is_use p) (cycle_events p).
Proof.
  unfold cycle_events, is_use.
  repeat (apply Forall_cons; split; [eexists; eauto|]). constructor.
Qed.

(** The three statements ahead of [const int cycles]. *)
Lemma run_to_cycles `{M : VerilatedModel} (a : Z) (v : list string) :
  run 3 (init a v)
  = mkState L11_cycles a v (Some first_loc) None None (Some (a, v))
      {[first_loc := first_object a v]} "" (prologue_events a v).
Proof.
  unfold init.
  run_step idtac.
  run_step ltac:(rewrite first_loc_empty).
  run_step ltac:(rewrite lookup_insert_eq).
  cbn [run]. rewrite insert_insert_eq, insert_empty. reflexivity.
Qed.

(** C7.  There is one model instance, and it is the driver's.  At every
    point of every execution the heap is empty or holds exactly the object
    [top] points to; more precisely, from after [new] up to [delete] it
    holds one object, at the address [new] returned, to which [top]
    points, and outside that region it is empty.  The object is there
    right after [new], before the loop; at [delete] it is that object
    after the ten cycles of the loop; right after [delete] the heap is
    empty.  [new] is executed once and [delete] once, on the address [new]
    returned; every action between them that touches a model assigns the
    clock of, or evaluates, that same instance, and all twenty [eval]
    calls lie between them; [delete] comes right before the [return], and
    no object is left behind. *)
Theorem C7_one_model_instance `{M : VerilatedModel}
    (argc : Z) (argv : list string) :
  (∀ fuel, let s := run fuel (init argc argv) in
           heap s = ∅ ∨ ∃ p o, top s = Some p ∧ heap s = {[p := o]}) ∧
  allocations (trace (main argc argv)) = [first_loc] ∧
  deallocations (trace (main argc argv)) = [first_loc] ∧
  (∃ mid,
     trace (main argc argv)
     = [EvCommandArgs argc argv; EvNew first_loc] ++ mid
         ++ [EvDelete first_loc; EvReturn 0] ∧
     Forall (λ e, is_use first_loc e ∨ on_model e = None) mid ∧
     length (eval_clocks mid) = 20%nat) ∧
  heap (main argc argv) = ∅ ∧
  (∀ fuel, let s := run fuel (init argc argv) in
           if live (pc s)
           then top s = Some first_loc ∧ ∃ o, heap s = {[first_loc := o]}
           else heap s = ∅) ∧
  (let s := run 2 (init argc argv) in
   pc s = L10_clk0 ∧
   heap s = {[first_loc := Vtop_new (Some (argc, argv))]}) ∧
  (let s := run (cycle_start 10 + 2) (init argc argv) in
   pc s = L24_delete ∧
   heap s
   = {[first_loc :=
         (simulate (Some (argc, argv)) 10
            (set_clk 0 (Vtop_new (Some (argc, argv))))).1]}) ∧
  (let s := run (cycle_start 10 + 3) (init argc argv) in
   pc s = L25_return ∧ heap s = ∅).
Proof.
  split_and!.
  - intros fuel. cbv zeta.
    destruct (Inv_run argc argv fuel) as (_ & _ & _ & _ & _ & Hlive & _).
    destruct (live (pc (run fuel (init argc argv)))); [|by left].
    destruct Hlive as (p & o & Htop & Hheap & _). right. eauto.
  - apply main_allocations.
  - apply main_deallocations.
  - exists ([EvSetClk first_loc 0]
              ++ mjoin (replicate 10 (cycle_events first_loc))
              ++ [EvCout Sim_done]).
    split_and!.
    + rewrite main_trace. unfold prologue_events, epilogue_events.
      cbn [app]. by rewrite <- !app_assoc.
    + rewrite !Forall_app. split_and!.
      * apply Forall_singleton. left. exists 0. by left.
      * apply Forall_join, Forall_replicate.
        eapply Forall_impl; [apply cycle_events_use|]. by left.
      * apply Forall_singleton. by right.
    + unfold eval_clocks. rewrite !omap_app, omap_join_replicate.
      reflexivity.
  - by rewrite main_final.
  - intros fuel. cbv zeta.
    pose proof (heap_shape argc argv fuel) as Hshape. cbv zeta in Hshape.
    destruct (live (pc (run fuel (init argc argv)))); [|done].
    destruct Hshape as (Htop & o & Hheap & _). eauto.
  - cbv zeta. by rewrite run_after_new.
  - cbv zeta. by rewrite run_at_delete.
  - cbv zeta. by rewrite run_after_delete.
Qed.

(** C8.  The clock rests at 0.  Before any [eval] is called the driver
    has set the clock to 0 (its first assignment); the last assignment of
    the run is 0 as well, and when the loop is left the port holds 0
    (given that [eval] does not drive its input).  The [eval] calls find
    the clock at 1, 0, 1, 0, ...: the first finds it at 1, the last at 0,
    every call that finds it at 1 is followed by a call that finds it at
    0, and every call that finds it at 0 comes right after one that found
    it at 1, so it is a falling-edge evaluation.  In the states
    themselves: whenever an [eval] is about to be called the port holds 1
    at line 16 and 0 at line 20, and in every cycle the first call is
    made at line 16 with the port at 1 and the second at line 20 with the
    port at 0, the last cycle's second call being the final one. *)
Theorem C8_clock_low_at_rest `{M : VerilatedModel}
    (argc : Z) (argv : list string) :
  let tr := trace (main argc argv) in
  (let s := run 3 (init argc argv) in
   eval_clocks (trace s) = [] ∧ clk <$> heap s !! first_loc = Some 0) ∧
  head (clk_writes tr) = Some 0 ∧
  last (clk_writes tr) = Some 0 ∧
  (ClkIsInput M →
   let s := run (cycle_start 10 + 1) (init argc argv) in
   pc s = L23_cout ∧ clk <$> heap s !! first_loc = Some 0) ∧
  last (eval_clocks tr) = Some 0 ∧
  (∀ n, eval_clocks tr !! n = Some 1 → eval_clocks tr !! S n = Some 0) ∧
  eval_clocks tr = mjoin (replicate 10 [1; 0]) ∧
  head (eval_clocks tr) = Some 1 ∧
  (∀ n, eval_clocks tr !! n = Some 0 →
        ∃ k, n = S k ∧ eval_clocks tr !! k = Some 1) ∧
  (∀ fuel, let s := run fuel (init argc argv) in
           at_eval (pc s) →
           ∃ o, heap s = {[first_loc := o]} ∧
                Some (clk o) = driven_clk (pc s)) ∧
  (∀ j, (j < 10)%nat →
        let rising := run (cycle_start j + 2) (init argc argv) in
        let falling := run (cycle_start j + 4) (init argc argv) in
        pc rising = L16_eval ∧
        clk <$> heap rising !! first_loc = Some 1 ∧
        pc falling = L20_eval ∧
        clk <$> heap falling !! first_loc = Some 0).
Proof.
  cbv zeta. split_and!.
  - by rewrite run_to_cycles.
  - rewrite run_to_cycles. cbn [heap]. rewrite lookup_singleton_eq.
    reflexivity.
  - rewrite main_clk_writes. reflexivity.
  - rewrite main_clk_writes. reflexivity.
  - intros Hlaw.
    pose proof (ClkInv_run argc argv (cycle_start 10 + 1)) as Hclk.
    rewrite run_loop_exit in *. cbn [pc heap]. split; [done|].
    rewrite lookup_singleton_eq. cbn [fmap option_fmap option_map].
    f_equal. eapply Hclk; [apply lookup_singleton_eq | reflexivity].
  - rewrite main_eval_clocks. reflexivity.
  - intros n. rewrite main_eval_clocks. apply high_then_low.
  - apply main_eval_clocks.
  - rewrite main_eval_clocks. reflexivity.
  - intros n. rewrite main_eval_clocks. apply low_after_high.
  - intros fuel Heval.
    pose proof (heap_shape argc argv fuel) as Hshape. cbv zeta in Hshape.
    assert (live (pc (run fuel (init argc argv))) = true) as Hlive.
    { by destruct (pc (run fuel (init argc argv))). }
    rewrite Hlive in Hshape.
    destruct Hshape as (_ & o & Hheap & Hclk). eauto.
  - intros j Hj.
    rewrite !run_add, run_cycle_start by lia.
    apply (cycle_eval_states _ _ _ _ _ _ _ _ _
             (simulate (Some (argc, argv)) j (first_object argc argv)).1);
      [apply lookup_singleton_eq | lia].
Qed.

(** C8 for the edge counter: the port is low when the loop is left. *)
Lemma C8_clock_low_at_rest_witness :
  clk <$> heap (run (cycle_start 10 + 1) (init (M:=EdgeCounter) 1 ["Vtop"]))
            !! first_loc = Some 0.
Proof.
  destruct (C8_clock_low_at_rest (M:=EdgeCounter) 1 ["Vtop"])
    as (_ & _ & _ & Hexit & _).
  apply Hexit, EdgeCounter_input.
Defined.

(** C9.  The driver prints the line ["Sim done"] and a newline exactly
    once.  The write comes after all twenty [eval] calls and before the
    [delete]: when it is executed the loop is over, the object is still
    live and standard output holds what the model printed; the line ends
    the output. *)
Theorem C9_sim_done_once `{M : VerilatedModel}
    (argc : Z) (argv : list string) :
  cout_writes (trace (main argc argv)) = [Sim_done] ∧
  Sim_done = "Sim done" +:+ newline ∧
  (∃ pre post,
     trace (main argc argv) = pre ++ EvCout Sim_done :: post ∧
     length (eval_clocks pre) = 20%nat ∧ eval_clocks post = [] ∧
     deallocations pre = [] ∧ deallocations post = [first_loc]) ∧
  (let s := run (cycle_start 10 + 1) (init argc argv) in
   pc s = L23_cout ∧ is_Some (heap s !! first_loc) ∧
   cout s = model_output argc argv) ∧
  cout (main argc argv) = model_output argc argv +:+ Sim_done.
Proof.
  split_and!.
  - apply main_cout_writes.
  - reflexivity.
  - exists (prologue_events argc argv
              ++ mjoin (replicate 10 (cycle_events first_loc))),
           [EvDelete first_loc; EvReturn 0].
    split_and!.
    + rewrite main_trace. by rewrite <- app_assoc.
    + unfold eval_clocks. rewrite omap_app, omap_join_replicate.
      reflexivity.
    + reflexivity.
    + unfold deallocations. rewrite omap_app, omap_join_replicate.
      reflexivity.
    + reflexivity.
  - cbv zeta. rewrite run_loop_exit. cbn [pc heap cout].
    rewrite lookup_singleton_eq. eauto.
  - by rewrite main_final.
Qed.

(** C10.  [Verilated::commandArgs] is called exactly once, with the
    program's own [argc] and [argv], and it is the first thing [main]
    does: the allocation of the model and all [eval] calls come after it.
    At no point of any execution is an [eval] about to be called, or a
    model object live, without the command line being registered. *)
Theorem C10_commandArgs_first `{M : VerilatedModel}
    (argc : Z) (argv : list string) :
  registrations (trace (main argc argv)) = [(argc, argv)] ∧
  (∃ rest,
     trace (main argc argv) = EvCommandArgs argc argv :: rest ∧
     registrations rest = [] ∧
     allocations rest = [first_loc] ∧
     length (eval_clocks rest) = 20%nat) ∧
  (∀ fuel, let s := run fuel (init argc argv) in
           at_eval (pc s) ∨ heap s ≠ ∅ → vargs s = Some (argc, argv)).
Proof.
  split_and!.
  - apply main_registrations.
  - exists ([EvNew first_loc; EvSetClk first_loc 0]
              ++ mjoin (replicate 10 (cycle_events first_loc))
              ++ epilogue_events).
    split_and!.
    + by rewrite main_trace.
    + unfold registrations. rewrite !omap_app, omap_join_replicate.
      reflexivity.
    + unfold allocations. rewrite !omap_app, omap_join_replicate.
      reflexivity.
    + unfold eval_clocks. rewrite !omap_app, omap_join_replicate.
      reflexivity.
  - intros fuel. cbv zeta.
    destruct (Inv_run argc argv fuel) as (_ & _ & Hctx & _ & _ & Hlive & _).
    rewrite Hctx.
    destruct (pc (run fuel (init argc argv))); cbn in *;
      intros [He|Hh]; done.
Qed.

(** * Beyond the claims *)

(** X1.  The loop is right for any cycle count, not only for 10: from a
    loop test with the counter at 0, [cycles] at [n] (any value an [int]
    holds) and the object live, the machine goes through [n] cycles, the
    counter taking the values 0, ..., [n-1] at the body's entry, and the
    test after them leaves the loop; the object has then been evaluated
    [n] times high and low, and the log and the output have grown by the
    cycles' actions and text. *)
Theorem X1_loop_any_cycle_count `{M : VerilatedModel} (n : nat)
    (a : Z) (v : list string) (p : loc) (ctx : VerilatedCtx)
    (o : Vtop Design) (out : string) (tr : list Event) :
  Z.of_nat n ≤ INT_MAX →
  let s := at_test a v p (Z.of_nat n) 0 ctx {[p := o]} out tr in
  run (6 * n + 1) s
  = mkState L23_cout a v (Some p) (Some (Z.of_nat n)) None ctx
      {[p := (simulate ctx n o).1]}
      (out +:+ (simulate ctx n o).2)
      (tr ++ mjoin (replicate n (cycle_events p))) ∧
  i <$> body_entries (tail (path (6 * n) s))
  = (λ j : nat, Some (Z.of_nat j)) <$> seq 0 n.
Proof.
  intros Hn. cbv zeta. split.
  - rewrite run_add.
    rewrite (loop_cycles n _ _ _ _ _ _ _ _ _ o)
      by (apply lookup_singleton_eq || lia).
    rewrite loop_exit by lia.
    by rewrite insert_singleton_eq.
  - rewrite (cycles_entries n _ _ _ _ _ _ _ _ _ o)
      by (apply lookup_singleton_eq || lia).
    reflexivity.
Qed.

(** X1 for three cycles of the edge counter. *)
Lemma X1_loop_any_cycle_count_witness :
  Z.of_nat 3 ≤ INT_MAX ∧
  pc (run (6 * 3 + 1)
        (at_test (M:=EdgeCounter) 1 ["Vtop"] 1 (Z.of_nat 3) 0 None
           {[1%positive := mkVtop 0 (mkEdgeCounter 0 0)]} "" []))
  = L23_cout.
Proof.
  assert (Z.of_nat 3 ≤ INT_MAX) as H3 by (unfold INT_MAX; lia).
  split; [exact H3|].
  exact (f_equal pc
           (proj1 (X1_loop_any_cycle_count (M:=EdgeCounter) 3 1 ["Vtop"] 1
                     None (mkVtop 0 (mkEdgeCounter 0 0)) "" [] H3))).
Defined.

(** X2.  What the model has been through when [delete] is reached: the
    heap holds, at the address [new] returned, the constructed object
    after the clock was set to 0 and ten cycles of [eval] high, [eval]
    low were applied to it, under the registered command line. *)
Theorem X2_model_after_ten_cycles `{M : VerilatedModel}
    (argc : Z) (argv : list string) :
  let s := run (cycle_start 10 + 2) (init argc argv) in
  pc s = L24_delete ∧
  heap s
  = {[first_loc :=
        (simulate (Some (argc, argv)) 10
           (set_clk 0 (Vtop_new (Some (argc, argv))))).1]}.
Proof.
  cbv zeta.
  replace (cycle_start 10 + 2)%nat with (cycle_start 10 + 1 + 1)%nat by lia.
  rewrite (run_add (cycle_start 10 + 1) 1), run_loop_exit.
  run_step idtac. cbn [run pc heap]. by split.
Qed.

(** ** [main] in a process that has state already *)

Section Boot.

Context {M : VerilatedModel}.

Lemma fresh_unused (h0 : gmap loc (Vtop Design)) :
  h0 !! fresh (dom h0) = None.
Proof. apply not_elem_of_dom, is_fresh. Qed.

Lemma boot_prologue c0 h0 out0 (a : Z) (v : list string) :
  run 5 (boot c0 h0 out0 a v)
  = at_test a v (fresh (dom h0)) 10 0 (Some (a, v))
      (<[fresh (dom h0) := first_object a v]> h0) out0
      [EvCommandArgs a v; EvNew (fresh (dom h0));
       EvSetClk (fresh (dom h0)) 0].
Proof.
  unfold boot, at_test, first_object.
  run_step idtac.
  run_step idtac.
  run_step ltac:(rewrite lookup_insert_eq).
  run_step idtac.
  run_step idtac.
  cbn [run]. rewrite insert_insert_eq. reflexivity.
Qed.

Lemma boot_epilogue a v p n ctx h o out tr :
  h !! p = Some o →
  run 3 (mkState L23_cout a v (Some p) (Some n) None ctx h out tr)
  = mkState (Exited 0) a v (Some p) (Some n) None ctx (delete p h)
      (out +:+ Sim_done)
      (tr ++ [EvCout Sim_done; EvDelete p; EvReturn 0]).
Proof.
  intros Hp.
  run_step idtac.
  run_step ltac:(rewrite Hp).
  run_step idtac.
  cbn [run]. rewrite <- !app_assoc. reflexivity.
Qed.

(** The run of [main] from [boot]. *)
Lemma boot_final c0 h0 out0 (a : Z) (v : list string) :
  run main_fuel (boot c0 h0 out0 a v)
  = mkState (Exited 0) a v (Some (fresh (dom h0))) (Some 10) None
      (Some (a, v)) h0
      (out0 +:+ model_output a v +:+ Sim_done)
      ([EvCommandArgs a v; EvNew (fresh (dom h0));
        EvSetClk (fresh (dom h0)) 0]
         ++ mjoin (replicate 10 (cycle_events (fresh (dom h0))))
         ++ [EvCout Sim_done; EvDelete (fresh (dom h0)); EvReturn 0]).
Proof.
  unfold main_fuel.
  rewrite (run_add (5 + 6 * 10 + 1) 3), (run_add (5 + 6 * 10) 1),
    (run_add 5 (6 * 10)).
  rewrite boot_prologue.
  rewrite (loop_cycles 10 _ _ _ _ _ _ _ _ _ (first_object a v))
    by (apply lookup_insert_eq || unfold INT_MAX; lia).
  rewrite loop_exit by lia.
  rewrite insert_insert_eq.
  erewrite boot_epilogue by apply lookup_insert_eq.
  rewrite delete_insert_id by apply fresh_unused.
  rewrite <- app_assoc, append_assoc. reflexivity.
Qed.

Lemma Untouched_boot c0 h0 out0 a v : Untouched h0 (boot c0 h0 out0 a v).
Proof. split; [done|]. unfold boot; cbn [top]. discriminate. Qed.

(** No statement touches an object that was there before [main]. *)
Lemma Untouched_step h0 (s s' : State) :
  Untouched h0 s → step s = Some s' → Untouched h0 s'.
Proof.
  destruct s as [l a v tp cy k ctx h out tr].
  unfold Untouched. inv_simpl. intros [Hobj Htop] Hstep.
  state_simpl_in Hstep.
  destruct l; inv_simpl.
  all: try (destruct tp as [p|]; [|discriminate];
            destruct (h !! p) as [o|] eqn:Hp; [|discriminate]).
  all: try (destruct k as [j|]; [|discriminate]).
  all: try (destruct cy as [n|]; [|discriminate]).
  all: try (unfold int_incr in Hstep).
  all: try case_decide.
  all: try discriminate.
  all: injection Hstep as <-; inv_simpl.
  all: try (split; done).
  (* new: the address is fresh for the heap, so for [h0] too *)
  1: { assert (h0 !! fresh (dom h) = None) as Hfresh.
       { destruct (h0 !! fresh (dom h)) as [o|] eqn:Ho; [|done].
         apply Hobj in Ho. by rewrite fresh_unused in Ho. }
       split.
       - intros q o Hq. rewrite lookup_insert_ne; [by apply Hobj|].
         intros <-. by rewrite Hfresh in Hq.
       - by intros ? [= <-]. }
  (* assignments and eval calls: through [top] only *)
  all: try (split; [|done]; intros q o' Hq;
            rewrite lookup_insert_ne; [by apply Hobj|];
            intros <-; by rewrite (Htop p eq_refl) in Hq).
  (* delete: of [top] only *)
  split; [|done]. intros q o' Hq.
  rewrite lookup_delete_ne; [by apply Hobj|].
  intros <-. by rewrite (Htop p eq_refl) in Hq.
Qed.

End Boot.

(** ** Two models under the same driver *)

(** Models related by a simulation print the same over any number of
    cycles. *)
Lemma simulate_related (M1 M2 : VerilatedModel)
    (R : Vtop (@Design M1) → Vtop (@Design M2) → Prop)
    (ctx : VerilatedCtx) :
  (∀ o1 o2, R o1 o2 →
            R (set_clk 0 o1) (set_clk 0 o2) ∧
            R (set_clk 1 o1) (set_clk 1 o2)) →
  (∀ o1 o2, R o1 o2 →
            R (Vtop_eval ctx o1).1 (Vtop_eval ctx o2).1 ∧
            (Vtop_eval ctx o1).2 = (Vtop_eval ctx o2).2) →
  ∀ m o1 o2, R o1 o2 →
    R (simulate ctx m o1).1 (simulate ctx m o2).1 ∧
    (simulate ctx m o1).2 = (simulate ctx m o2).2.
Proof.
  intros Hset Heval m.
  induction m as [|m IH]; intros o1 o2 HR; [by split|].
  cbn [simulate]. unfold cycle. cbn [fst snd].
  destruct (Heval _ _ (proj2 (Hset _ _ HR))) as [HR1 Hout1].
  destruct (Heval _ _ (proj1 (Hset _ _ HR1))) as [HR2 Hout2].
  destruct (IH _ _ HR2) as [HR3 Hout3].
  split; [done|]. by rewrite Hout1, Hout2, Hout3.
Qed.

Section TwoModels.

Context (M1 M2 : VerilatedModel).

Lemma same_actions_init (a : Z) (v : list string) :
  same_actions (init (M:=M1) a v) (init (M:=M2) a v).
Proof.
  unfold same_actions, init; inv_simpl.
  split_and!; rewrite ?dom_empty_L; done.
Qed.

Lemma same_actions_sym (s1 : @State M1) (s2 : @State M2) :
  same_actions s1 s2 → same_actions s2 s1.
Proof.
  unfold same_actions.
  intros (Hpc & Ha & Hv & Htop & Hcy & Hi & Hctx & Hdom & Htr & Hclk).
  split_and!; try done.
  rewrite <- Hpc, <- Htop. intros He p Hp. symmetry. by apply Hclk.
Qed.

Lemma same_dom_lookup2 (h1 : gmap loc (Vtop (@Design M1)))
    (h2 : gmap loc (Vtop (@Design M2))) (p : loc) o1 :
  dom h1 = dom h2 → h1 !! p = Some o1 → is_Some (h2 !! p).
Proof.
  intros Hdom H1. apply elem_of_dom. rewrite <- Hdom. apply elem_of_dom.
  eauto.
Qed.

End TwoModels.

Section TwoModelsStep.

Context (M1 M2 : VerilatedModel).

(** Whatever the driver does next over one model it does over the other:
    nothing it decides depends on what a model computes or prints. *)
Lemma same_actions_step (s1 s1' : @State M1) (s2 : @State M2) :
  same_actions s1 s2 → step s1 = Some s1' →
  ∃ s2', step s2 = Some s2' ∧ same_actions s1' s2'.
Proof.
  destruct s1 as [l a1 v1 tp cy k ctx1 h1 out1 tr1].
  destruct s2 as [l2 a2 v2 tp2 cy2 k2 ctx2 h2 out2 tr2].
  unfold same_actions. inv_simpl.
  intros (<- & <- & <- & <- & <- & <- & <- & Hdom & <- & Hclk) Hstep.
  state_simpl_in Hstep.
  destruct l; inv_simpl.
  all: try (destruct tp as [p|]; [|discriminate];
            destruct (h1 !! p) as [o1|] eqn:H1; [|discriminate];
            destruct (same_dom_lookup2 M1 M2 h1 h2 p o1 Hdom H1)
              as [o2 H2]).
  all: try (destruct k as [j|]; [|discriminate]).
  all: try (destruct cy as [n|]; [|discriminate]).
  all: try (unfold int_incr in Hstep).
  all: try case_decide.
  all: try discriminate.
  all: injection Hstep as <-.
  all: eexists; split;
    [ state_simpl; rewrite ?H2; try unfold int_incr;
      first [ rewrite decide_True by done
            | rewrite decide_False by done
            | idtac ];
      state_simpl; reflexivity | ].
  all: inv_simpl; split_and!; try done.
  all: rewrite ?dom_insert_L, ?dom_delete_L, ?Hdom; try done.
  (* the clock an eval is about to find was just assigned *)
  all: try (by intros _ ? [= <-]; rewrite !lookup_insert_eq).
  (* the clock an eval found *)
  all: specialize (Hclk I p eq_refl); rewrite H1, H2 in Hclk.
  all: by injection Hclk as ->.
Qed.

End TwoModelsStep.

Lemma same_actions_run (M1 M2 : VerilatedModel) (a : Z) (v : list string)
    (n : nat) :
  same_actions (run n (init (M:=M1) a v)) (run n (init (M:=M2) a v)).
Proof.
  induction n as [|n IH]; [apply same_actions_init|].
  rewrite !run_S_r.
  destruct (step (run n (init (M:=M1) a v))) as [s1'|] eqn:H1.
  - destruct (same_actions_step M1 M2 _ _ _ IH H1) as (s2' & -> & Hs).
    exact Hs.
  - destruct (step (run n (init (M:=M2) a v))) as [s2'|] eqn:H2; [|exact IH].
    apply same_actions_sym in IH.
    destruct (same_actions_step M2 M1 _ _ _ IH H2) as (s1' & Hs1 & _).
    congruence.
Qed.

(** X3.  [main] in a process that already has state.  Whatever objects
    the heap holds, whatever command line was registered earlier and
    whatever is on standard output when [main] is entered: the model is
    allocated at an unused address and freed again, so the heap ends as it
    began, and at no point of the execution is one of the earlier objects
    changed or removed; the earlier registration is replaced by [main]'s
    own before the model is built, so the model's output is that of
    [main]'s command line alone; and the earlier output is kept, followed
    by the model's text and the closing line.  The status is 0. *)
Theorem X3_process_state_restored `{M : VerilatedModel}
    (c0 : VerilatedCtx) (h0 : gmap loc (Vtop Design)) (out0 : string)
    (argc : Z) (argv : list string) :
  let s := run main_fuel (boot c0 h0 out0 argc argv) in
  exit_status s = Some 0 ∧
  heap s = h0 ∧
  vargs s = Some (argc, argv) ∧
  cout s = out0 +:+ model_output argc argv +:+ Sim_done ∧
  allocations (trace s) = [fresh (dom h0)] ∧
  deallocations (trace s) = [fresh (dom h0)] ∧
  h0 !! fresh (dom h0) = None ∧
  (∀ fuel q o,
     h0 !! q = Some o →
     heap (run fuel (boot c0 h0 out0 argc argv)) !! q = Some o).
Proof.
  cbv zeta. rewrite boot_final. cbn [pc heap vargs cout trace exit_status].
  unfold exit_status; cbn [pc].
  split_and!; [reflexivity | reflexivity | reflexivity | reflexivity
              | reflexivity | reflexivity | | ].
  - apply fresh_unused.
  - intros fuel.
    apply (run_invariant (Untouched h0)); [apply Untouched_boot|].
    intros s1 s2. apply Untouched_step.
Qed.

(** X4.  The driver takes no notice of the model.  Over any two models,
    under the same command line, the two executions agree statement by
    statement on the program point, the pointer, the counters, the set of
    live objects and the whole log of actions, clock values included; so
    the runs perform the same actions and return the same status,
    whatever the models compute or print. *)
Theorem X4_driver_ignores_model (M1 M2 : VerilatedModel)
    (argc : Z) (argv : list string) :
  (∀ fuel, same_actions (run fuel (init (M:=M1) argc argv))
                        (run fuel (init (M:=M2) argc argv))) ∧
  trace (main (M:=M1) argc argv) = trace (main (M:=M2) argc argv) ∧
  exit_status (main (M:=M1) argc argv)
  = exit_status (main (M:=M2) argc argv).
Proof.
  split_and!.
  - intros fuel. apply same_actions_run.
  - rewrite !main_eq.
    by destruct (same_actions_run M1 M2 argc argv main_fuel)
      as (_ & _ & _ & _ & _ & _ & _ & _ & Htr & _).
  - rewrite !main_eq. unfold exit_status.
    by destruct (same_actions_run M1 M2 argc argv main_fuel) as (-> & _).
Qed.

(** X5.  Models that simulate each other cannot be told apart through
    the driver.  Given a relation between the objects of two models that
    holds of the constructed objects, is kept by assigning 0 or 1 to the
    clock and by [eval], with [eval] printing the same text on related
    objects: the two runs of [main] leave the same text on standard
    output, and the objects handed to [delete] are related. *)
Theorem X5_equivalent_models_same_output (M1 M2 : VerilatedModel)
    (R : Vtop (@Design M1) → Vtop (@Design M2) → Prop)
    (argc : Z) (argv : list string) :
  R (Vtop_new (Some (argc, argv))) (Vtop_new (Some (argc, argv))) →
  (∀ o1 o2, R o1 o2 →
            R (set_clk 0 o1) (set_clk 0 o2) ∧
            R (set_clk 1 o1) (set_clk 1 o2)) →
  (∀ o1 o2, R o1 o2 →
            R (Vtop_eval (Some (argc, argv)) o1).1
              (Vtop_eval (Some (argc, argv)) o2).1 ∧
            (Vtop_eval (Some (argc, argv)) o1).2
            = (Vtop_eval (Some (argc, argv)) o2).2) →
  cout (main (M:=M1) argc argv) = cout (main (M:=M2) argc argv) ∧
  ∃ o1 o2,
    heap (run (cycle_start 10 + 1) (init (M:=M1) argc argv))
    = {[first_loc := o1]} ∧
    heap (run (cycle_start 10 + 1) (init (M:=M2) argc argv))
    = {[first_loc := o2]} ∧
    R o1 o2.
Proof.
  intros Hnew Hset Heval.
  destruct (simulate_related M1 M2 R (Some (argc, argv)) Hset Heval 10
              (first_object argc argv) (first_object argc argv))
    as [Hobj Hout].
  { apply Hset, Hnew. }
  split.
  - rewrite !main_final. cbn [cout final_state]. unfold model_output.
    f_equal. exact Hout.
  - eexists _, _. rewrite !run_loop_exit. cbn [heap].
    split_and!; [reflexivity | reflexivity | exact Hobj].
Qed.

(** X5 for the edge counter and the tally, which keep their state in
    different forms and both print a line on each rising edge: the two
    runs print the same ten ticks and the closing line. *)
Lemma X5_equivalent_models_same_output_witness :
  cout (main (M:=EdgeCounter) 1 ["Vtop"])
  = cout (main (M:=TallyModel) 1 ["Vtop"]) ∧
  cout (main (M:=TallyModel) 1 ["Vtop"])
  = repeat_text 10 ("tick" +:+ newline) +:+ Sim_done.
Proof.
  split.
  - refine (proj1 (X5_equivalent_models_same_output EdgeCounter TallyModel
                     tally_rel 1 ["Vtop"] _ _ _)).
    + unfold tally_rel. cbn. split_and!; done.
    + intros o1 o2 Hrel. split; by apply tally_rel_set_clk.
    + intros o1 o2 Hrel. by apply tally_rel_eval.
  - rewrite main_final. vm_compute. reflexivity.
Defined.
